(** * SalesIQ: a shallow embedding of the transcript view and of the
    application controller, with the properties of its specification.

    Strings are modelled as Stdlib [string]s read as sequences of ASCII
    code units: [toLowerCase], [toUpperCase] and [trim] are modelled on
    their ASCII part.  JavaScript numbers are modelled as exact rationals
    extended with the infinities and NaN ([jsnum]); double rounding and
    overflow are not modelled. *)

From Stdlib Require Import String Ascii List ZArith QArith Bool Lia Sorting.Sorted.
From Stdlib Require Import Numbers.DecimalString.
Import ListNotations.

Open Scope string_scope.
Open Scope list_scope.

(* ------------------------------------------------------------------ *)
(** ** JavaScript strings *)

Module JsString.

Definition code (c : ascii) : nat := nat_of_ascii c.

(** WhiteSpace and LineTerminator code units of the ASCII range
    (TAB, LF, VT, FF, CR, SP). *)
Definition is_ws (c : ascii) : bool :=
  ((9 <=? code c) && (code c <=? 13))%nat || (code c =? 32)%nat.

Fixpoint drop_ws (l : list ascii) : list ascii :=
  match l with
  | c :: r => if is_ws c then drop_ws r else l
  | [] => []
  end.

Definition trim_l (l : list ascii) : list ascii := rev (drop_ws (rev (drop_ws l))).

(** [String.prototype.trim] *)
Definition trim (s : string) : string :=
  string_of_list_ascii (trim_l (list_ascii_of_string s)).

(** [toLowerCase] / [toUpperCase] on one code unit. *)
Definition lower_c (c : ascii) : ascii :=
  if ((65 <=? code c) && (code c <=? 90))%nat then ascii_of_nat (code c + 32) else c.

Fixpoint toLowerCase (s : string) : string :=
  match s with
  | EmptyString => EmptyString
  | String c r => String (lower_c c) (toLowerCase r)
  end.

(** [s.startsWith(p)] *)
Fixpoint startsWith (s p : string) {struct p} : bool :=
  match p, s with
  | EmptyString, _ => true
  | String c p', String d s' => Ascii.eqb c d && startsWith s' p'
  | String _ _, EmptyString => false
  end.

(** [s.includes(q)]: some position of [s] starts with [q]. *)
Fixpoint includes (s q : string) : bool :=
  startsWith s q ||
  match s with
  | EmptyString => false
  | String _ s' => includes s' q
  end.

(** [s.split(sep)] for a one-character separator [sep]; [cur] holds the
    current piece, reversed. *)
Fixpoint split_go (sep : ascii) (cur : list ascii) (s : string) : list string :=
  match s with
  | EmptyString => [string_of_list_ascii (rev cur)]
  | String c r =>
      if Ascii.eqb c sep
      then string_of_list_ascii (rev cur) :: split_go sep [] r
      else split_go sep (c :: cur) r
  end.

Definition split (sep : ascii) (s : string) : list string := split_go sep [] s.

(** [arr.pop()] on the array returned by [split], which is never empty. *)
Definition last_piece (l : list string) : string := last l "".

Fixpoint has_char (c : ascii) (s : string) : bool :=
  match s with
  | EmptyString => false
  | String d r => Ascii.eqb d c || has_char c r
  end.

End JsString.

(* ------------------------------------------------------------------ *)
(** ** JavaScript numbers and [Number(string)] *)

Module JsNumber.
Import JsString.
Local Open Scope Z_scope.

Inductive jsnum : Type :=
| JNum (q : Q)
| JInf (positive : bool)
| JNaN.

Definition jn (z : Z) : jsnum := JNum (inject_Z z).

Definition js_neg (x : jsnum) : jsnum :=
  match x with
  | JNum q => JNum (- q)
  | JInf b => JInf (negb b)
  | JNaN => JNaN
  end.

(** [x + y] *)
Definition js_add (x y : jsnum) : jsnum :=
  match x, y with
  | JNaN, _ | _, JNaN => JNaN
  | JInf a, JInf b => if Bool.eqb a b then JInf a else JNaN
  | JInf a, JNum _ | JNum _, JInf a => JInf a
  | JNum p, JNum q => JNum (p + q)
  end.

(** [x * y] *)
Definition js_mul (x y : jsnum) : jsnum :=
  match x, y with
  | JNaN, _ | _, JNaN => JNaN
  | JInf a, JInf b => JInf (Bool.eqb a b)
  | JInf a, JNum q | JNum q, JInf a =>
      if Qeq_bool q 0 then JNaN else JInf (Bool.eqb a (Qle_bool 0 q))
  | JNum p, JNum q => JNum (p * q)
  end.

(** [x <= y] (false as soon as one side is NaN). *)
Definition js_le (x y : jsnum) : bool :=
  match x, y with
  | JNaN, _ | _, JNaN => false
  | JInf false, _ => true
  | JInf true, JInf b => b
  | JInf true, JNum _ => false
  | JNum _, JInf b => b
  | JNum p, JNum q => Qle_bool p q
  end.

Definition js_lt (x y : jsnum) : bool :=
  match x, y with
  | JNaN, _ | _, JNaN => false
  | _, _ => negb (js_le y x)
  end.

(** Value of a digit in the given radix. *)
Definition digit_val (radix : Z) (c : ascii) : option Z :=
  let n := Z.of_nat (code c) in
  let v := if (48 <=? n) && (n <=? 57) then n - 48
           else if (97 <=? n) && (n <=? 122) then n - 87
           else if (65 <=? n) && (n <=? 90) then n - 55
           else radix in
  if v <? radix then Some v else None.

(** Longest run of digits: accumulated value, number of digits, rest. *)
Fixpoint take_digits (radix : Z) (l : list ascii) (acc : Z) (cnt : nat)
  : Z * nat * list ascii :=
  match l with
  | c :: r =>
      match digit_val radix c with
      | Some v => take_digits radix r (acc * radix + v) (S cnt)
      | None => (acc, cnt, l)
      end
  | [] => (acc, cnt, [])
  end.

(** [m * 10^k] as an exact rational. *)
Definition scale10 (m k : Z) : Q :=
  if 0 <=? k then inject_Z (m * 10 ^ k) else Qmake m (Z.to_pos (10 ^ (- k))).

(** ExponentPart after its [e]/[E]: SignedInteger. *)
Definition parse_exponent (l : list ascii) : option (Z * list ascii) :=
  let '(sgn, l') :=
    match l with
    | c :: r => if Ascii.eqb c "+"%char then (1, r)
                else if Ascii.eqb c "-"%char then (-1, r) else (1, l)
    | [] => (1, l)
    end in
  let '(v, n, rest) := take_digits 10 l' 0 0 in
  if (n =? 0)%nat then None else Some (sgn * v, rest).

Definition is_e (c : ascii) : bool := Ascii.eqb c "e"%char || Ascii.eqb c "E"%char.

(** StrUnsignedDecimalLiteral, which must cover the whole input. *)
Definition parse_unsigned_decimal (l : list ascii) : option jsnum :=
  if list_eq_dec ascii_dec l (list_ascii_of_string "Infinity") then Some (JInf true) else
  let '(ip, ni, r1) := take_digits 10 l 0 0 in
  let '(m, nf, r2) :=
    match r1 with
    | c :: r => if Ascii.eqb c "."%char then take_digits 10 r ip 0 else (ip, 0%nat, r1)
    | [] => (ip, 0%nat, r1)
    end in
  if (ni + nf =? 0)%nat then None else
  match r2 with
  | [] => Some (JNum (scale10 m (- Z.of_nat nf)))
  | e :: r3 =>
      if is_e e then
        match parse_exponent r3 with
        | Some (x, []) => Some (JNum (scale10 m (x - Z.of_nat nf)))
        | _ => None
        end
      else None
  end.

(** StrDecimalLiteral: an optional sign, then the unsigned literal. *)
Definition parse_str_decimal (l : list ascii) : option jsnum :=
  match l with
  | c :: r =>
      if Ascii.eqb c "+"%char then parse_unsigned_decimal r
      else if Ascii.eqb c "-"%char then option_map js_neg (parse_unsigned_decimal r)
      else parse_unsigned_decimal l
  | [] => None
  end.

Definition nondecimal_radix (c : ascii) : option Z :=
  if Ascii.eqb c "b"%char || Ascii.eqb c "B"%char then Some 2
  else if Ascii.eqb c "o"%char || Ascii.eqb c "O"%char then Some 8
  else if Ascii.eqb c "x"%char || Ascii.eqb c "X"%char then Some 16
  else None.

(** NonDecimalIntegerLiteral: [0b..], [0o..], [0x..]. *)
Definition parse_nondecimal (l : list ascii) : option jsnum :=
  match l with
  | z :: x :: r =>
      if Ascii.eqb z "0"%char then
        match nondecimal_radix x with
        | Some radix =>
            match take_digits radix r 0 0 with
            | (v, S _, []) => Some (jn v)
            | _ => None
            end
        | None => None
        end
      else None
  | _ => None
  end.

(** [Number(s)] (StringToNumber): whitespace is trimmed, the empty
    string is 0, anything that is not a StringNumericLiteral is NaN. *)
Definition Number (s : string) : jsnum :=
  match trim_l (list_ascii_of_string s) with
  | [] => jn 0
  | l =>
      match parse_nondecimal l with
      | Some v => v
      | None =>
          match parse_str_decimal l with
          | Some v => v
          | None => JNaN
          end
      end
  end.

End JsNumber.

(* ------------------------------------------------------------------ *)
(** ** Transcript view ([src/components/TranscriptView.tsx]) *)

Module Transcript.
Import JsString JsNumber.

Record TranscriptSegment : Type := mkSeg {
  speaker : string;
  text : string;
  timestamp : string;
  endTime : option string
}.

(** [parseTimestamp] *)
Definition parseTimestamp (timeStr : string) : jsnum :=
  if string_dec timeStr "" then jn 0 else
  let parts := map Number (split ":"%char timeStr) in
  match parts with
  | [p0; p1] => js_add (js_mul p0 (jn 60)) p1
  | [p0; p1; p2] => js_add (js_add (js_mul p0 (jn 3600)) (js_mul p1 (jn 60))) p2
  | _ => jn 0
  end.

(** [activeSegment]: the loop [for (i = transcript.length - 1; i >= 0; i--)];
    [scan_down transcript currentTime i] runs the iterations for the
    indices [i - 1] down to [0]. *)
Fixpoint scan_down (transcript : list TranscriptSegment) (currentTime : jsnum) (i : nat)
  : option TranscriptSegment :=
  match i with
  | O => None
  | S i' =>
      match nth_error transcript i' with
      | Some seg =>
          if js_le (parseTimestamp (timestamp seg)) currentTime then Some seg
          else scan_down transcript currentTime i'
      | None => None
      end
  end.

Definition activeSegment (transcript : list TranscriptSegment) (currentTime : jsnum)
  : option TranscriptSegment :=
  match transcript with
  | [] => None
  | _ => scan_down transcript currentTime (length transcript)
  end.

(** [filteredTranscript] *)
Definition filteredTranscript (transcript : list TranscriptSegment) (searchQuery : string)
  : list TranscriptSegment :=
  if string_dec (trim searchQuery) "" then transcript else
  let query := toLowerCase searchQuery in
  filter (fun segment => includes (toLowerCase (text segment)) query
                         || includes (toLowerCase (speaker segment)) query)
         transcript.

(** Start time of a segment, as [activeSegment] computes it. *)
Definition start (seg : TranscriptSegment) : jsnum := parseTimestamp (timestamp seg).

(** [q] occurs in [s] ignoring letter case. *)
Definition ci_contains (s q : string) : Prop :=
  exists a b, toLowerCase s = (a ++ toLowerCase q ++ b)%string.

(** *** [renderHighlightedText] *)

(** The class [[.*+?^${}()|[\]\\]] of the escaping [replace]. *)
Definition is_escaped_char (c : ascii) : bool :=
  existsb (Ascii.eqb c)
    ["."; "*"; "+"; "?"; "^"; "$"; "{"; "}"; "("; ")"; "|"; "["; "]"; "\"]%char.


(** SyntaxCharacter of the RegExp pattern grammar: [^ $ \ . * + ? ( ) [ ] { } |]. *)
Definition is_syntax_char (c : ascii) : bool :=
  existsb (Ascii.eqb c)
    ["^"; "$"; "\"; "."; "*"; "+"; "?"; "("; ")"; "["; "]"; "{"; "}"; "|"]%char.








(** Order-preserving sublist. *)
Inductive subseq {A : Type} : list A -> list A -> Prop :=
| subseq_nil : subseq [] []
| subseq_skip x l l' : subseq l l' -> subseq l (x :: l')
| subseq_keep x l l' : subseq l l' -> subseq (x :: l) (x :: l').










End Transcript.

(* ------------------------------------------------------------------ *)
(** ** Speaker labels, speaker totals and topic chips of the transcript
    panel ([src/components/TranscriptView.tsx]) *)

Module TranscriptPanel.
Import JsString JsNumber Transcript.

(** [getDisplaySpeaker] *)
Definition getDisplaySpeaker (originalSpeaker : string) : string :=
  let lower := toLowerCase originalSpeaker in
  if String.eqb lower "speaker a" || String.eqb lower "speaker 1" then "Salesperson"
  else if String.eqb lower "speaker b" || String.eqb lower "speaker 2" then "Prospect"
  else originalSpeaker.

(** JS truthiness of a number: [0] and [NaN] are falsy. *)
Definition js_truthy (x : jsnum) : bool :=
  match x with
  | JNum q => negb (Qeq_bool q 0)
  | JInf _ => true
  | JNaN => false
  end.

(** [x - y] *)
Definition js_sub (x y : jsnum) : jsnum := js_add x (js_neg y).

(** [Math.max(0, x)] *)
Definition js_max0 (x : jsnum) : jsnum :=
  match x with
  | JNaN => JNaN
  | JNum q => JNum (if Qle_bool q 0 then 0 else q)
  | JInf true => JInf true
  | JInf false => jn 0
  end.

(** The share of one segment in [speakerStats]:
    [Math.max(0, end - start)], [end] being [start + 2] without an
    [endTime] (an empty [endTime] is falsy too). *)
Definition segmentDuration (t : TranscriptSegment) : jsnum :=
  let start := parseTimestamp (timestamp t) in
  let end_ := match endTime t with
              | Some e => if string_dec e "" then js_add start (jn 2) else parseTimestamp e
              | None => js_add start (jn 2)
              end in
  js_max0 (js_sub end_ start).

(** The [stats] object, as the list of its own properties.  A property is
    updated in place, a new one is added at the end. *)
Fixpoint stats_get (k : string) (m : list (string * jsnum)) : option jsnum :=
  match m with
  | [] => None
  | (k', v) :: m' => if String.eqb k k' then Some v else stats_get k m'
  end.

Fixpoint stats_set (k : string) (v : jsnum) (m : list (string * jsnum)) : list (string * jsnum) :=
  match m with
  | [] => [(k, v)]
  | (k', v') :: m' => if String.eqb k k' then (k, v) :: m' else (k', v') :: stats_set k v m'
  end.

(** [stats[name] || 0] for an own property or an absent one. *)
Definition or_zero (v : option jsnum) : jsnum :=
  match v with
  | Some x => if js_truthy x then x else jn 0
  | None => jn 0
  end.

(** Names that [{}] inherits from [Object.prototype]: reading
    [stats[name]] for them yields a function or an object, not a number. *)
Definition object_proto_names : list string :=
  ["constructor"; "__proto__"; "hasOwnProperty"; "isPrototypeOf"; "propertyIsEnumerable";
   "toString"; "valueOf"; "toLocaleString"; "__defineGetter__"; "__defineSetter__";
   "__lookupGetter__"; "__lookupSetter__"].

Definition stats_step (stats : list (string * jsnum)) (t : TranscriptSegment)
  : list (string * jsnum) :=
  let name := getDisplaySpeaker (speaker t) in
  stats_set name (js_add (or_zero (stats_get name stats)) (segmentDuration t)) stats.

(** [speakerStats]; [None] when a display name is one of
    [object_proto_names], whose inherited values are not modelled. *)
Definition speakerStats (transcript : list TranscriptSegment) : option (list (string * jsnum)) :=
  if existsb (fun t => existsb (String.eqb (getDisplaySpeaker (speaker t))) object_proto_names)
       transcript
  then None
  else Some (fold_left stats_step transcript []).

(** The segment a topic chip seeks to:
    [transcript.find(s => s.text.toLowerCase().includes(topic.toLowerCase()))]. *)
Definition topicTarget (transcript : list TranscriptSegment) (topic : string)
  : option TranscriptSegment :=
  find (fun s => includes (toLowerCase (text s)) (toLowerCase topic)) transcript.

(** A click on a topic chip: the timestamp handed to [onSegmentClick]
    (when a target exists and the callback is given), and the new
    [searchQuery]. *)
Definition topicClick (hasCallback : bool) (transcript : list TranscriptSegment) (topic : string)
  : option string * string :=
  (if hasCallback then option_map timestamp (topicTarget transcript topic) else None, topic).

(** Equality of JS numbers ([Q] has several representations of a value). *)
Definition js_same (x y : jsnum) : Prop :=
  match x, y with
  | JNum p, JNum q => (p == q)%Q
  | JInf a, JInf b => a = b
  | JNaN, JNaN => True
  | _, _ => False
  end.

(** [x] is [NaN], [+Infinity] or a number [>= 0]. *)
Definition nonneg (x : jsnum) : Prop :=
  match x with
  | JNum q => (0 <= q)%Q
  | JInf b => b = true
  | JNaN => True
  end.

(** One update of a name's total in [speakerStats]. *)
Definition acc_step (acc : option jsnum) (d : jsnum) : option jsnum :=
  Some (js_add (or_zero acc) d).

(** The shares of the segments shown under display name [name], in order. *)
Definition contributions (name : string) (transcript : list TranscriptSegment) : list jsnum :=
  map segmentDuration
      (filter (fun t => String.eqb (getDisplaySpeaker (speaker t)) name) transcript).

End TranscriptPanel.


(* ------------------------------------------------------------------ *)
(** ** A state and exception monad for the asynchronous handlers

    A handler runs to completion before the next user event (the UI
    disables the upload control while a run is in flight); every [await]
    is a sequential step, every [throw] an exception carrying the
    [message] of the thrown [Error]. *)

Module Effects.

Inductive res (A : Type) : Type :=
| Ok (a : A)
| Throw (msg : string).
Arguments Ok {A} a.
Arguments Throw {A} msg.

Definition M (S A : Type) : Type := S -> S * res A.

Definition ret {S A : Type} (a : A) : M S A := fun s => (s, Ok a).

Definition bind {S A B : Type} (m : M S A) (k : A -> M S B) : M S B :=
  fun s => let (s', r) := m s in
           match r with
           | Ok a => k a s'
           | Throw e => (s', Throw e)
           end.

Definition throw {S A : Type} (msg : string) : M S A := fun s => (s, Throw msg).

(** An outcome decided by the environment (a promise that resolves or rejects). *)
Definition lift {S A : Type} (r : res A) : M S A := fun s => (s, r).

Definition modify {S : Type} (f : S -> S) : M S unit := fun s => (f s, Ok tt).

Definition gets {S A : Type} (f : S -> A) : M S A := fun s => (s, Ok (f s)).

(** [try { m } catch (e) { h(e.message) }] *)
Definition try_catch {S A : Type} (m : M S A) (h : string -> M S A) : M S A :=
  fun s => let (s', r) := m s in
           match r with
           | Ok a => (s', Ok a)
           | Throw e => h e s'
           end.

(** Runs [m] and hands its outcome, value or exception, to the rest. *)
Definition attempt {S A : Type} (m : M S A) : M S (res A) :=
  fun s => let (s', r) := m s in (s', Ok r).

(** The state after a handler run. *)
Definition exec {S : Type} (m : M S unit) (s : S) : S := fst (m s).

Definition is_ok {A : Type} (r : res A) : bool :=
  match r with Ok _ => true | Throw _ => false end.

Notation "x <- m ;; k" := (bind m (fun x => k))
  (at level 61, m at next level, right associativity).
Notation "m ;;; k" := (bind m (fun _ : unit => k))
  (at level 61, right associativity).

(** [a || b] on a message: the default when the message is empty. *)
Definition or_default (msg default : string) : string :=
  if string_dec msg "" then default else msg.

End Effects.

(* ------------------------------------------------------------------ *)
(** ** Data shared by the application variants ([src/types.ts], browser) *)

Module AppCommon.
Import JsString JsNumber Transcript Effects.

Inductive AppState : Type := IDLE | UPLOADING | ANALYZING | SUCCESS | ERROR.

(** The fields of a browser [File] the code reads. *)
Record File : Type := mkFile {
  file_name : string;
  file_size : Z;
  file_lastModified : Z;
  file_type : string
}.

(** The part of [AnalysisResult] the controller reads. *)
Record AnalysisResult : Type := mkResult {
  summary : string;
  transcript : list TranscriptSegment;
  verdict : string;
  riskScore : option Z;
  callType : string
}.

(** An audio source: an object URL [blob:..] created by
    [URL.createObjectURL], or a remote URL. *)
Inductive url : Type :=
| Blob (n : nat)
| Remote (s : string).

(** The browser's object-URL registry: live handles, the next fresh
    handle, and every [URL.revokeObjectURL] call made, latest first. *)
Record Browser : Type := mkBrowser {
  live : list nat;
  next_blob : nat;
  revoked : list url
}.

Definition browser0 : Browser := mkBrowser [] 0 [].

Definition create_blob (br : Browser) : url * Browser :=
  (Blob (next_blob br), mkBrowser (next_blob br :: live br) (S (next_blob br)) (revoked br)).

(** Revoking a remote URL releases nothing. *)
Definition revoke_url (u : url) (br : Browser) : Browser :=
  match u with
  | Blob n => mkBrowser (remove Nat.eq_dec n (live br)) (next_blob br) (u :: revoked br)
  | Remote _ => mkBrowser (live br) (next_blob br) (u :: revoked br)
  end.

(** The outcomes of the external operations of one handler run. *)
Record Env : Type := mkEnv {
  env_url : res unit;                 (* URL.createObjectURL(file) *)
  env_encode : res (string * string); (* Promise.all([fileToBase64, getAudioDuration]) *)
  env_analyze : res AnalysisResult;   (* the remote analysis *)
  env_now : Z;                        (* Date.now() *)
  env_upload_error : option string;   (* storage upload: error message, if any *)
  env_db_error : option string;       (* database insert: error message, if any *)
  env_public_url : string -> string   (* storage getPublicUrl(path).publicUrl *)
}.

(** [String(n)] for an integer. *)
Definition Z_to_string (z : Z) : string := NilEmpty.string_of_int (Z.to_int z).

End AppCommon.


(* ------------------------------------------------------------------ *)
(** ** The in-memory-cache controller ([App] of [src/unnamed/part_001]) *)

Module CacheApp.
Import JsString JsNumber Transcript Effects AppCommon.

Definition CACHE_VERSION : string := "v2".

Record CachedAnalysis : Type := mkCached {
  c_result : AnalysisResult;
  c_duration : string;
  c_file : File;
  c_timestamp : Z
}.

Record RecentUpload : Type := mkRecent {
  r_fileName : string;
  r_duration : string;
  r_timestamp : Z;
  r_cacheKey : string
}.

Record St : Type := mkSt {
  appState : AppState;
  analysisData : option AnalysisResult;
  errorMsg : option string;
  fileName : string;
  duration : string;
  audioUrl : option url;
  recentUploads : list RecentUpload;
  analysisCache : list (string * CachedAnalysis);
  isShareOpen : bool;
  browser : Browser;
  analyze_calls : list (string * string)
}.

Definition set_appState (v : AppState) (st : St) : St :=
  {| appState := v; analysisData := analysisData st; errorMsg := errorMsg st; fileName :=
    fileName st; duration := duration st; audioUrl := audioUrl st; recentUploads :=
    recentUploads st; analysisCache := analysisCache st; isShareOpen := isShareOpen st; browser
    := browser st; analyze_calls := analyze_calls st |}.
Definition set_analysisData (v : option AnalysisResult) (st : St) : St :=
  {| appState := appState st; analysisData := v; errorMsg := errorMsg st; fileName := fileName
    st; duration := duration st; audioUrl := audioUrl st; recentUploads := recentUploads st;
    analysisCache := analysisCache st; isShareOpen := isShareOpen st; browser := browser st;
    analyze_calls := analyze_calls st |}.
Definition set_errorMsg (v : option string) (st : St) : St :=
  {| appState := appState st; analysisData := analysisData st; errorMsg := v; fileName :=
    fileName st; duration := duration st; audioUrl := audioUrl st; recentUploads :=
    recentUploads st; analysisCache := analysisCache st; isShareOpen := isShareOpen st; browser
    := browser st; analyze_calls := analyze_calls st |}.
Definition set_fileName (v : string) (st : St) : St :=
  {| appState := appState st; analysisData := analysisData st; errorMsg := errorMsg st; fileName
    := v; duration := duration st; audioUrl := audioUrl st; recentUploads := recentUploads st;
    analysisCache := analysisCache st; isShareOpen := isShareOpen st; browser := browser st;
    analyze_calls := analyze_calls st |}.
Definition set_duration (v : string) (st : St) : St :=
  {| appState := appState st; analysisData := analysisData st; errorMsg := errorMsg st; fileName
    := fileName st; duration := v; audioUrl := audioUrl st; recentUploads := recentUploads st;
    analysisCache := analysisCache st; isShareOpen := isShareOpen st; browser := browser st;
    analyze_calls := analyze_calls st |}.
Definition set_audioUrl (v : option url) (st : St) : St :=
  {| appState := appState st; analysisData := analysisData st; errorMsg := errorMsg st; fileName
    := fileName st; duration := duration st; audioUrl := v; recentUploads := recentUploads st;
    analysisCache := analysisCache st; isShareOpen := isShareOpen st; browser := browser st;
    analyze_calls := analyze_calls st |}.
Definition set_recentUploads (v : list RecentUpload) (st : St) : St :=
  {| appState := appState st; analysisData := analysisData st; errorMsg := errorMsg st; fileName
    := fileName st; duration := duration st; audioUrl := audioUrl st; recentUploads := v;
    analysisCache := analysisCache st; isShareOpen := isShareOpen st; browser := browser st;
    analyze_calls := analyze_calls st |}.
Definition set_analysisCache (v : list (string * CachedAnalysis)) (st : St) : St :=
  {| appState := appState st; analysisData := analysisData st; errorMsg := errorMsg st; fileName
    := fileName st; duration := duration st; audioUrl := audioUrl st; recentUploads :=
    recentUploads st; analysisCache := v; isShareOpen := isShareOpen st; browser := browser st;
    analyze_calls := analyze_calls st |}.
Definition set_isShareOpen (v : bool) (st : St) : St :=
  {| appState := appState st; analysisData := analysisData st; errorMsg := errorMsg st; fileName
    := fileName st; duration := duration st; audioUrl := audioUrl st; recentUploads :=
    recentUploads st; analysisCache := analysisCache st; isShareOpen := v; browser := browser
    st; analyze_calls := analyze_calls st |}.
Definition set_browser (v : Browser) (st : St) : St :=
  {| appState := appState st; analysisData := analysisData st; errorMsg := errorMsg st; fileName
    := fileName st; duration := duration st; audioUrl := audioUrl st; recentUploads :=
    recentUploads st; analysisCache := analysisCache st; isShareOpen := isShareOpen st; browser
    := v; analyze_calls := analyze_calls st |}.
Definition set_analyze_calls (v : list (string * string)) (st : St) : St :=
  {| appState := appState st; analysisData := analysisData st; errorMsg := errorMsg st; fileName
    := fileName st; duration := duration st; audioUrl := audioUrl st; recentUploads :=
    recentUploads st; analysisCache := analysisCache st; isShareOpen := isShareOpen st; browser
    := browser st; analyze_calls := v |}.

(** [Map.get]; [Map.set] replaces the entry of the key. *)
Fixpoint map_get {V : Type} (k : string) (m : list (string * V)) : option V :=
  match m with
  | [] => None
  | (k', v) :: m' => if String.eqb k k' then Some v else map_get k m'
  end.

Definition map_set {V : Type} (k : string) (v : V) (m : list (string * V)) : list (string * V) :=
  (k, v) :: filter (fun p => negb (String.eqb k (fst p))) m.

Definition cacheKey (file : File) : string :=
  (CACHE_VERSION ++ "-" ++ file_name file ++ "-" ++ Z_to_string (file_size file) ++ "-"
   ++ Z_to_string (file_lastModified file))%string.

(** [addToRecentUploads], the functional update given to [setRecentUploads]. *)
Definition addToRecentUploads (key name dur : string) (now : Z) (prev : list RecentUpload)
  : list RecentUpload :=
  if existsb (fun item => String.eqb (r_cacheKey item) key) prev then prev
  else mkRecent name dur now key :: prev.

Definition createObjectURL (env : Env) : M St url :=
  fun st => match env_url env with
            | Ok _ => let (u, br) := create_blob (browser st) in (set_browser br st, Ok u)
            | Throw m => (st, Throw m)
            end.

Definition revokeObjectURL (u : url) : M St unit :=
  modify (fun st => set_browser (revoke_url u (browser st)) st).

(** [analyzeSalesCall(base64Data, mimeType)]: the call is recorded, its
    outcome comes from the environment. *)
Definition analyzeSalesCall (env : Env) (base64Data mimeType : string) : M St AnalysisResult :=
  fun st => (set_analyze_calls ((base64Data, mimeType) :: analyze_calls st) st, env_analyze env).

Definition analysisErrorMessage (msg : string) : string :=
  if includes msg "400" then "The audio format is not supported by the AI model."
  else if includes msg "413" then "The audio file is too large to be processed."
  else if includes msg "429" then "Too many requests. Please wait a moment and try again."
  else if includes msg "Candidate was blocked"
  then "Analysis blocked by safety filters. Content may be inappropriate."
  else "AI analysis failed to generate a response. Please try again.".

(** The outer [catch] of [handleFileSelect]; [currentUrl] is the handle
    created before the failure, if any. *)
Definition onFailure (currentUrl : option url) (msg : string) : M St unit :=
  modify (set_appState ERROR) ;;;
  modify (set_errorMsg (Some (or_default msg "An unexpected error occurred. Please try again."))) ;;;
  match currentUrl with
  | Some u => revokeObjectURL u ;;; modify (set_audioUrl None)
  | None => ret tt
  end.

(** [handleFileSelect].  The inner [try] around [URL.createObjectURL]
    rethrows to the outer [catch] while [currentUrl] is still [null]; this
    is the [Throw] branch below. *)
Definition handleFileSelect (env : Env) (file : File) : M St unit :=
  modify (set_appState UPLOADING) ;;;
  modify (set_errorMsg None) ;;;
  modify (set_fileName (file_name file)) ;;;
  r <- attempt (createObjectURL env) ;;
  match r with
  | Throw _ =>
      onFailure None
        "Failed to initialize audio player. Your browser may not support this file type."
  | Ok currentUrl =>
      try_catch
        (modify (set_audioUrl (Some currentUrl)) ;;;
         let key := cacheKey file in
         cache <- gets analysisCache ;;
         match map_get key cache with
         | Some cached =>
             modify (set_duration (c_duration cached)) ;;;
             modify (set_analysisData (Some (c_result cached))) ;;;
             modify (set_appState SUCCESS) ;;;
             modify (fun st => set_recentUploads
                       (addToRecentUploads key (file_name file) (c_duration cached) (env_now env)
                          (recentUploads st)) st)
         | None =>
             enc <- try_catch (lift (env_encode env))
                      (fun _ => throw ("Unable to process the audio file. It might be corrupted"
                                       ++ " or in an unsupported format.")%string) ;;
             let '(base64Data, audioDuration) := enc in
             modify (set_duration audioDuration) ;;;
             modify (set_appState ANALYZING) ;;;
             result <- try_catch (analyzeSalesCall env base64Data (file_type file))
                         (fun msg => throw (analysisErrorMessage msg)) ;;
             modify (fun st => set_analysisCache
                       (map_set key (mkCached result audioDuration file (env_now env))
                          (analysisCache st)) st) ;;;
             modify (fun st => set_recentUploads
                       (addToRecentUploads key (file_name file) audioDuration (env_now env)
                          (recentUploads st)) st) ;;;
             modify (set_analysisData (Some result)) ;;;
             modify (set_appState SUCCESS)
         end)
        (onFailure (Some currentUrl))
  end.

(** [handleRecentSelect] *)
Definition handleRecentSelect (env : Env) (key : string) : M St unit :=
  cached <- gets (fun st => map_get key (analysisCache st)) ;;
  match cached with
  | None => ret tt
  | Some cached =>
      modify (set_appState UPLOADING) ;;;
      try_catch
        (newUrl <- createObjectURL env ;;
         modify (set_audioUrl (Some newUrl)) ;;;
         modify (set_fileName (file_name (c_file cached))) ;;;
         modify (set_duration (c_duration cached)) ;;;
         modify (set_analysisData (Some (c_result cached))) ;;;
         modify (set_appState SUCCESS))
        (fun _ =>
           modify (set_appState IDLE) ;;;
           modify (set_errorMsg
                     (Some "Could not restore previous session. Please upload the file again.")))
  end.

(** [handleReset] *)
Definition handleReset : M St unit :=
  u <- gets audioUrl ;;
  match u with
  | Some u => revokeObjectURL u
  | None => ret tt
  end ;;;
  modify (set_audioUrl None) ;;;
  modify (set_appState IDLE) ;;;
  modify (set_analysisData None) ;;;
  modify (set_fileName "") ;;;
  modify (set_duration "") ;;;
  modify (set_errorMsg None) ;;;
  modify (set_isShareOpen false).

Definition init : St :=
  {| appState := IDLE; analysisData := None; errorMsg := None; fileName := ""; duration := "";
     audioUrl := None; recentUploads := []; analysisCache := []; isShareOpen := false;
     browser := browser0; analyze_calls := [] |}.

Inductive event : Type :=
| SelectFile (file : File)
| SelectRecent (key : string)
| Reset.

Definition step (env : Env) (e : event) (st : St) : St :=
  match e with
  | SelectFile f => exec (handleFileSelect env f) st
  | SelectRecent k => exec (handleRecentSelect env k) st
  | Reset => exec handleReset st
  end.

Fixpoint run (evs : list (Env * event)) (st : St) : St :=
  match evs with
  | [] => st
  | (env, e) :: evs' => run evs' (step env e st)
  end.

Inductive reachable : St -> Prop :=
| reach_init : reachable init
| reach_step env e st : reachable st -> reachable (step env e st).

Definition same_fingerprint (f g : File) : Prop :=
  file_name f = file_name g /\ file_size f = file_size g /\
  file_lastModified f = file_lastModified g.

(** The events the rendered page offers: [FileUpload] is enabled in
    [IDLE] and [ERROR] only; the recent-uploads list is rendered in those
    states, one item per entry; the reset button only in [SUCCESS]. *)
Definition upload_enabled (s : AppState) : bool :=
  match s with IDLE | ERROR => true | _ => false end.

Definition enabled (st : St) (e : event) : bool :=
  match e with
  | SelectFile _ => upload_enabled (appState st)
  | SelectRecent k =>
      upload_enabled (appState st) && existsb (fun item => String.eqb (r_cacheKey item) k)
                                        (recentUploads st)
  | Reset => match appState st with SUCCESS => true | _ => false end
  end.

Inductive ui_reachable : St -> Prop :=
| ui_init : ui_reachable init
| ui_step env e st : ui_reachable st -> enabled st e = true -> ui_reachable (step env e st).

(** The object URLs the player holds: the blob bound to [audioUrl]. *)
Definition bound_blobs (u : option url) : list nat :=
  match u with
  | Some (Blob n) => [n]
  | _ => []
  end.

(** Discipline of the object URLs: the live ones are exactly the one the
    player is bound to, none is revoked twice, and handles are fresh. *)
Definition url_discipline (st : St) : Prop :=
  live (browser st) = bound_blobs (audioUrl st) /\
  (upload_enabled (appState st) = true -> audioUrl st = None) /\
  NoDup (revoked (browser st)) /\
  (forall n, In (Blob n) (revoked (browser st)) -> (n < next_blob (browser st))%nat) /\
  (forall n, In n (live (browser st)) -> (n < next_blob (browser st))%nat) /\
  (forall n, In n (live (browser st)) -> ~ In (Blob n) (revoked (browser st))) /\
  (forall s, audioUrl st <> Some (Remote s)).

End CacheApp.


(* ------------------------------------------------------------------ *)
(** ** The persisted controller ([App] of [src/App.tsx]): signed-in user,
    storage upload, database record, no in-memory cache.  The progress bar
    timer effect is not modelled; [progress] is only reset. *)

Module PersistApp.
Import JsString JsNumber Transcript Effects AppCommon.

Record User : Type := mkUser { user_id : string }.

(** The row written to, and read back from, the [calls] table. *)
Record CallRow : Type := mkRow {
  row_user_id : string;
  row_file_name : string;
  row_duration : string;
  row_analysis_result : AnalysisResult;
  row_verdict : string;
  row_risk_score : option Z;
  row_call_type : string;
  row_audio_url : string
}.

Record St : Type := mkSt {
  user : option User;
  appState : AppState;
  analysisData : option AnalysisResult;
  errorMsg : option string;
  fileName : string;
  duration : string;
  audioUrl : option url;
  recentUploads : list CallRow;
  progress : Q;
  isShareOpen : bool;
  toastMessage : option string;
  currentTime : jsnum;
  browser : Browser;
  analyze_calls : list (string * string);
  storage_uploads : list (string * File);
  db_inserts : list CallRow;
  history_fetches : nat
}.

Definition set_user (v : option User) (st : St) : St :=
  {| user := v; appState := appState st; analysisData := analysisData st; errorMsg := errorMsg
    st; fileName := fileName st; duration := duration st; audioUrl := audioUrl st; recentUploads
    := recentUploads st; progress := progress st; isShareOpen := isShareOpen st; toastMessage :=
    toastMessage st; currentTime := currentTime st; browser := browser st; analyze_calls :=
    analyze_calls st; storage_uploads := storage_uploads st; db_inserts := db_inserts st;
    history_fetches := history_fetches st |}.
Definition set_appState (v : AppState) (st : St) : St :=
  {| user := user st; appState := v; analysisData := analysisData st; errorMsg := errorMsg st;
    fileName := fileName st; duration := duration st; audioUrl := audioUrl st; recentUploads :=
    recentUploads st; progress := progress st; isShareOpen := isShareOpen st; toastMessage :=
    toastMessage st; currentTime := currentTime st; browser := browser st; analyze_calls :=
    analyze_calls st; storage_uploads := storage_uploads st; db_inserts := db_inserts st;
    history_fetches := history_fetches st |}.
Definition set_analysisData (v : option AnalysisResult) (st : St) : St :=
  {| user := user st; appState := appState st; analysisData := v; errorMsg := errorMsg st;
    fileName := fileName st; duration := duration st; audioUrl := audioUrl st; recentUploads :=
    recentUploads st; progress := progress st; isShareOpen := isShareOpen st; toastMessage :=
    toastMessage st; currentTime := currentTime st; browser := browser st; analyze_calls :=
    analyze_calls st; storage_uploads := storage_uploads st; db_inserts := db_inserts st;
    history_fetches := history_fetches st |}.
Definition set_errorMsg (v : option string) (st : St) : St :=
  {| user := user st; appState := appState st; analysisData := analysisData st; errorMsg := v;
    fileName := fileName st; duration := duration st; audioUrl := audioUrl st; recentUploads :=
    recentUploads st; progress := progress st; isShareOpen := isShareOpen st; toastMessage :=
    toastMessage st; currentTime := currentTime st; browser := browser st; analyze_calls :=
    analyze_calls st; storage_uploads := storage_uploads st; db_inserts := db_inserts st;
    history_fetches := history_fetches st |}.
Definition set_fileName (v : string) (st : St) : St :=
  {| user := user st; appState := appState st; analysisData := analysisData st; errorMsg :=
    errorMsg st; fileName := v; duration := duration st; audioUrl := audioUrl st; recentUploads
    := recentUploads st; progress := progress st; isShareOpen := isShareOpen st; toastMessage :=
    toastMessage st; currentTime := currentTime st; browser := browser st; analyze_calls :=
    analyze_calls st; storage_uploads := storage_uploads st; db_inserts := db_inserts st;
    history_fetches := history_fetches st |}.
Definition set_duration (v : string) (st : St) : St :=
  {| user := user st; appState := appState st; analysisData := analysisData st; errorMsg :=
    errorMsg st; fileName := fileName st; duration := v; audioUrl := audioUrl st; recentUploads
    := recentUploads st; progress := progress st; isShareOpen := isShareOpen st; toastMessage :=
    toastMessage st; currentTime := currentTime st; browser := browser st; analyze_calls :=
    analyze_calls st; storage_uploads := storage_uploads st; db_inserts := db_inserts st;
    history_fetches := history_fetches st |}.
Definition set_audioUrl (v : option url) (st : St) : St :=
  {| user := user st; appState := appState st; analysisData := analysisData st; errorMsg :=
    errorMsg st; fileName := fileName st; duration := duration st; audioUrl := v; recentUploads
    := recentUploads st; progress := progress st; isShareOpen := isShareOpen st; toastMessage :=
    toastMessage st; currentTime := currentTime st; browser := browser st; analyze_calls :=
    analyze_calls st; storage_uploads := storage_uploads st; db_inserts := db_inserts st;
    history_fetches := history_fetches st |}.
Definition set_recentUploads (v : list CallRow) (st : St) : St :=
  {| user := user st; appState := appState st; analysisData := analysisData st; errorMsg :=
    errorMsg st; fileName := fileName st; duration := duration st; audioUrl := audioUrl st;
    recentUploads := v; progress := progress st; isShareOpen := isShareOpen st; toastMessage :=
    toastMessage st; currentTime := currentTime st; browser := browser st; analyze_calls :=
    analyze_calls st; storage_uploads := storage_uploads st; db_inserts := db_inserts st;
    history_fetches := history_fetches st |}.
Definition set_progress (v : Q) (st : St) : St :=
  {| user := user st; appState := appState st; analysisData := analysisData st; errorMsg :=
    errorMsg st; fileName := fileName st; duration := duration st; audioUrl := audioUrl st;
    recentUploads := recentUploads st; progress := v; isShareOpen := isShareOpen st;
    toastMessage := toastMessage st; currentTime := currentTime st; browser := browser st;
    analyze_calls := analyze_calls st; storage_uploads := storage_uploads st; db_inserts :=
    db_inserts st; history_fetches := history_fetches st |}.
Definition set_isShareOpen (v : bool) (st : St) : St :=
  {| user := user st; appState := appState st; analysisData := analysisData st; errorMsg :=
    errorMsg st; fileName := fileName st; duration := duration st; audioUrl := audioUrl st;
    recentUploads := recentUploads st; progress := progress st; isShareOpen := v; toastMessage
    := toastMessage st; currentTime := currentTime st; browser := browser st; analyze_calls :=
    analyze_calls st; storage_uploads := storage_uploads st; db_inserts := db_inserts st;
    history_fetches := history_fetches st |}.
Definition set_toastMessage (v : option string) (st : St) : St :=
  {| user := user st; appState := appState st; analysisData := analysisData st; errorMsg :=
    errorMsg st; fileName := fileName st; duration := duration st; audioUrl := audioUrl st;
    recentUploads := recentUploads st; progress := progress st; isShareOpen := isShareOpen st;
    toastMessage := v; currentTime := currentTime st; browser := browser st; analyze_calls :=
    analyze_calls st; storage_uploads := storage_uploads st; db_inserts := db_inserts st;
    history_fetches := history_fetches st |}.
Definition set_currentTime (v : jsnum) (st : St) : St :=
  {| user := user st; appState := appState st; analysisData := analysisData st; errorMsg :=
    errorMsg st; fileName := fileName st; duration := duration st; audioUrl := audioUrl st;
    recentUploads := recentUploads st; progress := progress st; isShareOpen := isShareOpen st;
    toastMessage := toastMessage st; currentTime := v; browser := browser st; analyze_calls :=
    analyze_calls st; storage_uploads := storage_uploads st; db_inserts := db_inserts st;
    history_fetches := history_fetches st |}.
Definition set_browser (v : Browser) (st : St) : St :=
  {| user := user st; appState := appState st; analysisData := analysisData st; errorMsg :=
    errorMsg st; fileName := fileName st; duration := duration st; audioUrl := audioUrl st;
    recentUploads := recentUploads st; progress := progress st; isShareOpen := isShareOpen st;
    toastMessage := toastMessage st; currentTime := currentTime st; browser := v; analyze_calls
    := analyze_calls st; storage_uploads := storage_uploads st; db_inserts := db_inserts st;
    history_fetches := history_fetches st |}.
Definition set_analyze_calls (v : list (string * string)) (st : St) : St :=
  {| user := user st; appState := appState st; analysisData := analysisData st; errorMsg :=
    errorMsg st; fileName := fileName st; duration := duration st; audioUrl := audioUrl st;
    recentUploads := recentUploads st; progress := progress st; isShareOpen := isShareOpen st;
    toastMessage := toastMessage st; currentTime := currentTime st; browser := browser st;
    analyze_calls := v; storage_uploads := storage_uploads st; db_inserts := db_inserts st;
    history_fetches := history_fetches st |}.
Definition set_storage_uploads (v : list (string * File)) (st : St) : St :=
  {| user := user st; appState := appState st; analysisData := analysisData st; errorMsg :=
    errorMsg st; fileName := fileName st; duration := duration st; audioUrl := audioUrl st;
    recentUploads := recentUploads st; progress := progress st; isShareOpen := isShareOpen st;
    toastMessage := toastMessage st; currentTime := currentTime st; browser := browser st;
    analyze_calls := analyze_calls st; storage_uploads := v; db_inserts := db_inserts st;
    history_fetches := history_fetches st |}.
Definition set_db_inserts (v : list CallRow) (st : St) : St :=
  {| user := user st; appState := appState st; analysisData := analysisData st; errorMsg :=
    errorMsg st; fileName := fileName st; duration := duration st; audioUrl := audioUrl st;
    recentUploads := recentUploads st; progress := progress st; isShareOpen := isShareOpen st;
    toastMessage := toastMessage st; currentTime := currentTime st; browser := browser st;
    analyze_calls := analyze_calls st; storage_uploads := storage_uploads st; db_inserts := v;
    history_fetches := history_fetches st |}.
Definition set_history_fetches (v : nat) (st : St) : St :=
  {| user := user st; appState := appState st; analysisData := analysisData st; errorMsg :=
    errorMsg st; fileName := fileName st; duration := duration st; audioUrl := audioUrl st;
    recentUploads := recentUploads st; progress := progress st; isShareOpen := isShareOpen st;
    toastMessage := toastMessage st; currentTime := currentTime st; browser := browser st;
    analyze_calls := analyze_calls st; storage_uploads := storage_uploads st; db_inserts :=
    db_inserts st; history_fetches := v |}.

Definition createObjectURL (env : Env) : M St url :=
  fun st => match env_url env with
            | Ok _ => let (u, br) := create_blob (browser st) in (set_browser br st, Ok u)
            | Throw m => (st, Throw m)
            end.

Definition revokeObjectURL (u : url) : M St unit :=
  modify (fun st => set_browser (revoke_url u (browser st)) st).

Definition analyzeSalesCall (env : Env) (base64Data mimeType : string) : M St AnalysisResult :=
  fun st => (set_analyze_calls ((base64Data, mimeType) :: analyze_calls st) st, env_analyze env).

(** [supabase.storage.from('calls').upload(filePath, file)]: resolves to
    [{ data, error }], it does not reject. *)
Definition upload (env : Env) (filePath : string) (file : File) : M St (option string) :=
  fun st => (set_storage_uploads ((filePath, file) :: storage_uploads st) st,
             Ok (env_upload_error env)).

(** [supabase.from('calls').insert(row).select().single()] *)
Definition insert (env : Env) (row : CallRow) : M St (option string) :=
  fun st => (set_db_inserts (row :: db_inserts st) st, Ok (env_db_error env)).

(** [fetchHistory()], started and not awaited: the request is recorded,
    its later [setRecentUploads] is a separate event. *)
Definition fetchHistory : M St unit :=
  modify (fun st => set_history_fetches (S (history_fetches st)) st).

(** The toast of a failed storage upload; the warning sign and its
    variation selector are written as their UTF-8 bytes. *)
Definition uploadWarning (msg : string) : string :=
  if includes msg "Bucket not found"
  then "⚠️ Supabase Storage: 'calls' bucket not found. Please create it in the dashboard."
  else "⚠️ Storage upload failed. Using local audio link.".

(** [file.name.split('.').pop()] *)
Definition fileExt (name : string) : string := last_piece (split "." name).

Definition onFailure (currentUrl : option url) (msg : string) : M St unit :=
  modify (set_appState ERROR) ;;;
  modify (set_errorMsg (Some (or_default msg "Something went wrong. Please try again."))) ;;;
  match currentUrl with
  | Some u => revokeObjectURL u
  | None => ret tt
  end.

Definition pipeline (env : Env) (u : User) (file : File) (currentUrl : url) : M St unit :=
  modify (set_audioUrl (Some currentUrl)) ;;;
  enc <- lift (env_encode env) ;;
  let '(base64Data, audioDuration) := enc in
  modify (set_duration audioDuration) ;;;
  modify (set_appState ANALYZING) ;;;
  let filePath := (user_id u ++ "/" ++ Z_to_string (env_now env) ++ "." ++ fileExt (file_name file))%string in
  uploadError <- upload env filePath file ;;
  match uploadError with
  | Some m => modify (set_toastMessage (Some (uploadWarning m)))
  | None => ret tt
  end ;;;
  let publicUrl := env_public_url env filePath in
  result <- analyzeSalesCall env base64Data (file_type file) ;;
  dbError <- insert env (mkRow (user_id u) (file_name file) audioDuration result (verdict result)
                         (riskScore result) (callType result) publicUrl) ;;
  match dbError with
  | Some m => throw m
  | None => ret tt
  end ;;;
  modify (set_analysisData (Some result)) ;;;
  modify (set_audioUrl (Some (Remote publicUrl))) ;;;
  modify (set_appState SUCCESS) ;;;
  fetchHistory.

(** [handleFileSelect] *)
Definition handleFileSelect (env : Env) (file : File) : M St unit :=
  u <- gets user ;;
  match u with
  | None => ret tt
  | Some u =>
      modify (set_appState UPLOADING) ;;;
      modify (set_errorMsg None) ;;;
      modify (set_fileName (file_name file)) ;;;
      r <- attempt (createObjectURL env) ;;
      match r with
      | Throw m => onFailure None m
      | Ok currentUrl => try_catch (pipeline env u file currentUrl) (onFailure (Some currentUrl))
      end
  end.

(** [handleReset] *)
Definition handleReset : M St unit :=
  a <- gets audioUrl ;;
  match a with
  | Some a => revokeObjectURL a
  | None => ret tt
  end ;;;
  modify (set_audioUrl None) ;;;
  modify (set_appState IDLE) ;;;
  modify (set_analysisData None) ;;;
  modify (set_fileName "") ;;;
  modify (set_duration "") ;;;
  modify (set_errorMsg None) ;;;
  modify (set_isShareOpen false) ;;;
  modify (set_progress 0%Q).

(** A signed-in user on an empty session. *)
Definition signed_in (u : User) : St :=
  {| user := Some u; appState := IDLE; analysisData := None; errorMsg := None; fileName := "";
     duration := ""; audioUrl := None; recentUploads := []; progress := 0%Q; isShareOpen := false;
     toastMessage := None; currentTime := JNum 0%Q; browser := browser0; analyze_calls := [];
     storage_uploads := []; db_inserts := []; history_fetches := 0 |}.

(** The audio element's state that [handleSeek] writes. *)
Record Audio : Type := mkAudio { audio_currentTime : Q; play_requested : bool }.

(** [handleSeek]: [None] is a missing [main-audio-player] element.
    Assigning a non-finite value to [currentTime] throws a [TypeError]
    (a [double] attribute); [audio.play()] rejections are swallowed. *)
Definition handleSeek (audio : option Audio) (timestamp : string) : res (option Audio) :=
  match audio with
  | None => Ok None
  | Some a =>
      let parts := map Number (split ":"%char timestamp) in
      let seconds := match parts with
                     | [p0; p1] => js_add (js_mul p0 (jn 60)) p1
                     | [p0; p1; p2] => js_add (js_add (js_mul p0 (jn 3600)) (js_mul p1 (jn 60))) p2
                     | _ => jn 0
                     end in
      match seconds with
      | JNum q => Ok (Some (mkAudio q true))
      | _ => Throw "Failed to set the 'currentTime' property: the value is non-finite."
      end
  end.

End PersistApp.


(* ------------------------------------------------------------------ *)
(** ** The analysis service with a lazily built client
    ([src/unnamed/part_002]: [getAIClient], [analyzeSalesCall]) *)

Module Gemini.
Import Effects.

(** The two variables of [process.env] the service reads; [None] is
    [undefined]. *)
Record ProcessEnv : Type := mkProcessEnv {
  API_KEY : option string;
  GEMINI_API_KEY : option string
}.

(** A [GoogleGenAI] client, identified by the key it was built with. *)
Record GoogleGenAI : Type := mkClient { apiKey : string }.

(** Module state: the cached client [ai] and the requests sent,
    latest first (key, audio data, MIME type). *)
Record GState : Type := mkGState {
  ai : option GoogleGenAI;
  requests : list (string * string * string)
}.

Definition gstate0 : GState := mkGState None [].

(** JS truthiness of a [string | undefined]. *)
Definition truthy (v : option string) : bool :=
  match v with
  | Some s => negb (String.eqb s "")
  | None => false
  end.

(** [a || b] *)
Definition js_or (a b : option string) : option string := if truthy a then a else b.

Definition missingKeyMessage : string :=
  "Missing API Key: Please create a .env.local file with GEMINI_API_KEY=your_key_here".

Definition getAIClient (penv : ProcessEnv) : M GState GoogleGenAI :=
  fun st =>
    match ai st with
    | Some c => (st, Ok c)
    | None =>
        let k := js_or (API_KEY penv) (GEMINI_API_KEY penv) in
        match k with
        | Some key => if truthy k then let c := mkClient key in (mkGState (Some c) (requests st), Ok c)
                      else (st, Throw missingKeyMessage)
        | None => (st, Throw missingKeyMessage)
        end
    end.

(** [client.models.generateContent(...)]: the request is recorded with the
    client's key; [response.text] comes from the provider. *)
Definition generateContent (client : GoogleGenAI) (base64Audio mimeType : string)
    (response : res (option string)) : M GState (option string) :=
  fun st => (mkGState (ai st) ((apiKey client, base64Audio, mimeType) :: requests st), response).

(** [analyzeSalesCall]: the non-empty response text goes to [JSON.parse],
    which is a parameter; a [SyntaxError] it raises is a [Throw].  The
    [catch] logs the error and rethrows it unchanged. *)
Definition analyzeSalesCall {A : Type} (JSON_parse : string -> res A) (penv : ProcessEnv)
    (response : res (option string)) (base64Audio mimeType : string) : M GState A :=
  client <- getAIClient penv ;;
  text <- generateContent client base64Audio mimeType response ;;
  match text with
  | Some t => if String.eqb t "" then throw "No response from Gemini" else lift (JSON_parse t)
  | None => throw "No response from Gemini"
  end.

End Gemini.

(* ------------------------------------------------------------------ *)
(** ** The eagerly built client of [src/services/gemini.ts] *)

Module GeminiEager.
Import Effects.

(** A [GoogleGenAI] client, identified by the key it was built with;
    [None] is an [undefined] key. *)
Record GoogleGenAI : Type := mkClient { apiKey : option string }.

(** [const ai = new GoogleGenAI({ apiKey: process.env.API_KEY })], run
    when the module is loaded, with no check of the key. *)
Definition ai (penv : Gemini.ProcessEnv) : GoogleGenAI := mkClient (Gemini.API_KEY penv).

(** The requests sent, latest first (key, audio data, MIME type). *)
Definition Requests : Type := list (option string * string * string).

(** [ai.models.generateContent(...)]: the request is recorded with the
    client's key; [response.text] comes from the provider. *)
Definition generateContent (client : GoogleGenAI) (base64Audio mimeType : string)
    (response : res (option string)) : M Requests (option string) :=
  fun reqs => ((apiKey client, base64Audio, mimeType) :: reqs, response).

(** [analyzeSalesCall] of [src/services/gemini.ts]. *)
Definition analyzeSalesCall {A : Type} (JSON_parse : string -> res A) (penv : Gemini.ProcessEnv)
    (response : res (option string)) (base64Audio mimeType : string) : M Requests A :=
  text <- generateContent (ai penv) base64Audio mimeType response ;;
  match text with
  | Some t => if String.eqb t "" then throw "No response from Gemini" else lift (JSON_parse t)
  | None => throw "No response from Gemini"
  end.

End GeminiEager.

(* ------------------------------------------------------------------ *)
(** ** The earlier controller without a recent list
    ([src/unnamed/part_001], the second [App]: [handleFileSelect],
    [handleReset]) *)

Module LegacyApp.
Import JsString JsNumber Transcript Effects AppCommon.

Record St : Type := mkSt {
  appState : AppState;
  analysisData : option AnalysisResult;
  errorMsg : option string;
  fileName : string;
  duration : string;
  audioUrl : option url;
  analysisCache : list (string * (AnalysisResult * string));
  isShareOpen : bool;
  browser : Browser;
  analyze_calls : list (string * string)
}.

Definition set_appState (v : AppState) (st : St) : St :=
  {| appState := v; analysisData := analysisData st; errorMsg := errorMsg st; fileName := fileName st; duration := duration st; audioUrl := audioUrl st; analysisCache := analysisCache st; isShareOpen := isShareOpen st; browser := browser st; analyze_calls := analyze_calls st |}.
Definition set_analysisData (v : option AnalysisResult) (st : St) : St :=
  {| appState := appState st; analysisData := v; errorMsg := errorMsg st; fileName := fileName st; duration := duration st; audioUrl := audioUrl st; analysisCache := analysisCache st; isShareOpen := isShareOpen st; browser := browser st; analyze_calls := analyze_calls st |}.
Definition set_errorMsg (v : option string) (st : St) : St :=
  {| appState := appState st; analysisData := analysisData st; errorMsg := v; fileName := fileName st; duration := duration st; audioUrl := audioUrl st; analysisCache := analysisCache st; isShareOpen := isShareOpen st; browser := browser st; analyze_calls := analyze_calls st |}.
Definition set_fileName (v : string) (st : St) : St :=
  {| appState := appState st; analysisData := analysisData st; errorMsg := errorMsg st; fileName := v; duration := duration st; audioUrl := audioUrl st; analysisCache := analysisCache st; isShareOpen := isShareOpen st; browser := browser st; analyze_calls := analyze_calls st |}.
Definition set_duration (v : string) (st : St) : St :=
  {| appState := appState st; analysisData := analysisData st; errorMsg := errorMsg st; fileName := fileName st; duration := v; audioUrl := audioUrl st; analysisCache := analysisCache st; isShareOpen := isShareOpen st; browser := browser st; analyze_calls := analyze_calls st |}.
Definition set_audioUrl (v : option url) (st : St) : St :=
  {| appState := appState st; analysisData := analysisData st; errorMsg := errorMsg st; fileName := fileName st; duration := duration st; audioUrl := v; analysisCache := analysisCache st; isShareOpen := isShareOpen st; browser := browser st; analyze_calls := analyze_calls st |}.
Definition set_analysisCache (v : list (string * (AnalysisResult * string))) (st : St) : St :=
  {| appState := appState st; analysisData := analysisData st; errorMsg := errorMsg st; fileName := fileName st; duration := duration st; audioUrl := audioUrl st; analysisCache := v; isShareOpen := isShareOpen st; browser := browser st; analyze_calls := analyze_calls st |}.
Definition set_isShareOpen (v : bool) (st : St) : St :=
  {| appState := appState st; analysisData := analysisData st; errorMsg := errorMsg st; fileName := fileName st; duration := duration st; audioUrl := audioUrl st; analysisCache := analysisCache st; isShareOpen := v; browser := browser st; analyze_calls := analyze_calls st |}.
Definition set_browser (v : Browser) (st : St) : St :=
  {| appState := appState st; analysisData := analysisData st; errorMsg := errorMsg st; fileName := fileName st; duration := duration st; audioUrl := audioUrl st; analysisCache := analysisCache st; isShareOpen := isShareOpen st; browser := v; analyze_calls := analyze_calls st |}.
Definition set_analyze_calls (v : list (string * string)) (st : St) : St :=
  {| appState := appState st; analysisData := analysisData st; errorMsg := errorMsg st; fileName := fileName st; duration := duration st; audioUrl := audioUrl st; analysisCache := analysisCache st; isShareOpen := isShareOpen st; browser := browser st; analyze_calls := v |}.

Definition createObjectURL (env : Env) : M St url :=
  fun st => match env_url env with
            | Ok _ => let (u, br) := create_blob (browser st) in (set_browser br st, Ok u)
            | Throw m => (st, Throw m)
            end.

Definition revokeObjectURL (u : url) : M St unit :=
  modify (fun st => set_browser (revoke_url u (browser st)) st).

Definition analyzeSalesCall (env : Env) (base64Data mimeType : string) : M St AnalysisResult :=
  fun st => (set_analyze_calls ((base64Data, mimeType) :: analyze_calls st) st, env_analyze env).

(** [handleFileSelect].  The [catch] reads [audioUrl] from the render the
    handler was created in: the value at the start of the run, [stale]. *)
Definition handleFileSelect (env : Env) (file : File) : M St unit :=
  stale <- gets audioUrl ;;
  modify (set_appState UPLOADING) ;;;
  modify (set_errorMsg None) ;;;
  modify (set_fileName (file_name file)) ;;;
  try_catch
    (u <- createObjectURL env ;;
     modify (set_audioUrl (Some u)) ;;;
     let key := CacheApp.cacheKey file in
     cache <- gets analysisCache ;;
     match CacheApp.map_get key cache with
     | Some (res0, dur0) =>
         modify (set_duration dur0) ;;;
         modify (set_analysisData (Some res0)) ;;;
         modify (set_appState SUCCESS)
     | None =>
         enc <- lift (env_encode env) ;;
         let '(base64Data, audioDuration) := enc in
         modify (set_duration audioDuration) ;;;
         modify (set_appState ANALYZING) ;;;
         result <- analyzeSalesCall env base64Data (file_type file) ;;
         modify (fun st => set_analysisCache
                   (CacheApp.map_set key (result, audioDuration) (analysisCache st)) st) ;;;
         modify (set_analysisData (Some result)) ;;;
         modify (set_appState SUCCESS)
     end)
    (fun _ =>
       modify (set_appState ERROR) ;;;
       modify (set_errorMsg
                 (Some "Failed to analyze audio. Please try again with a valid audio file.")) ;;;
       match stale with
       | Some a => revokeObjectURL a ;;; modify (set_audioUrl None)
       | None => ret tt
       end).

(** [handleReset] *)
Definition handleReset : M St unit :=
  u <- gets audioUrl ;;
  match u with
  | Some u => revokeObjectURL u
  | None => ret tt
  end ;;;
  modify (set_audioUrl None) ;;;
  modify (set_appState IDLE) ;;;
  modify (set_analysisData None) ;;;
  modify (set_fileName "") ;;;
  modify (set_duration "") ;;;
  modify (set_errorMsg None) ;;;
  modify (set_isShareOpen false).

Definition init : St :=
  {| appState := IDLE; analysisData := None; errorMsg := None; fileName := ""; duration := "";
     audioUrl := None; analysisCache := []; isShareOpen := false; browser := browser0;
     analyze_calls := [] |}.

Inductive event : Type :=
| SelectFile (file : File)
| Reset.

Definition step (env : Env) (e : event) (st : St) : St :=
  match e with
  | SelectFile f => exec (handleFileSelect env f) st
  | Reset => exec handleReset st
  end.

(** The page offers [FileUpload] in [IDLE] and [ERROR], the reset button
    in [SUCCESS]. *)
Definition enabled (st : St) (e : event) : bool :=
  match e with
  | SelectFile _ => CacheApp.upload_enabled (appState st)
  | Reset => match appState st with SUCCESS => true | _ => false end
  end.

End LegacyApp.

(* ------------------------------------------------------------------ *)
(** ** The simulated progress bar ([src/App.tsx], the [appState] effect) *)

Module Progress.

(** Entering [UPLOADING] sets the progress to [0]; every 100 ms the
    interval applies this update. *)
Definition uploadingTick (prev : Q) : Q := if Qle_bool 35 prev then 35 else prev + 2.

(** Entering [ANALYZING]: [setProgress(prev => Math.max(prev, 35))]. *)
Definition analyzingEnter (prev : Q) : Q := if Qle_bool prev 35 then 35 else prev.

End Progress.

(* ================================================================== *)
(** * Properties *)

Module TranscriptFacts.
Import JsString JsNumber Transcript.

(** *** Strings *)

Lemma split_go_app_sep (sep : ascii) (cur : list ascii) (a s : string) :
  has_char sep a = false ->
  split_go sep cur (a ++ String sep s)%string =
  string_of_list_ascii (rev cur ++ list_ascii_of_string a) :: split_go sep [] s.
Proof.
  revert cur; induction a as [|c a IH]; intros cur Ha; simpl in *.
  - rewrite Ascii.eqb_refl, app_nil_r; reflexivity.
  - apply orb_false_iff in Ha as [Hc Ha].
    rewrite Hc, IH by exact Ha. simpl.
    rewrite <- app_assoc; reflexivity.
Qed.

Lemma split_go_nosep (sep : ascii) (cur : list ascii) (a : string) :
  has_char sep a = false ->
  split_go sep cur a = [string_of_list_ascii (rev cur ++ list_ascii_of_string a)].
Proof.
  revert cur; induction a as [|c a IH]; intros cur Ha; simpl in *.
  - rewrite app_nil_r; reflexivity.
  - apply orb_false_iff in Ha as [Hc Ha].
    rewrite Hc, IH by exact Ha. simpl.
    rewrite <- app_assoc; reflexivity.
Qed.

Lemma split_two (a b : string) :
  has_char ":" a = false -> has_char ":" b = false ->
  split ":" (a ++ ":" ++ b)%string = [a; b].
Proof.
  intros Ha Hb. unfold split.
  change (":" ++ b)%string with (String ":" b).
  rewrite split_go_app_sep, split_go_nosep by assumption.
  simpl; rewrite !string_of_list_ascii_of_string; reflexivity.
Qed.

Lemma split_three (a b c : string) :
  has_char ":" a = false -> has_char ":" b = false -> has_char ":" c = false ->
  split ":" (a ++ ":" ++ b ++ ":" ++ c)%string = [a; b; c].
Proof.
  intros Ha Hb Hc. unfold split.
  change (":" ++ b ++ ":" ++ c)%string with (String ":" (b ++ String ":" c)%string).
  rewrite split_go_app_sep, split_go_app_sep, split_go_nosep by assumption.
  simpl; rewrite !string_of_list_ascii_of_string; reflexivity.
Qed.

Lemma append_nonempty_sep (a b : string) : (a ++ String ":" b)%string <> "".
Proof. destruct a; discriminate. Qed.

(** *** Number arithmetic *)

Lemma js_add_NaN_r (x : jsnum) : js_add x JNaN = JNaN.
Proof. destruct x as [| [] |]; reflexivity. Qed.

Lemma js_add_NaN_l (x : jsnum) : js_add JNaN x = JNaN.
Proof. reflexivity. Qed.

Lemma js_mul_NaN_l (x : jsnum) : js_mul JNaN x = JNaN.
Proof. reflexivity. Qed.

Ltac nan_simpl :=
  repeat match goal with
  | H : _ \/ _ |- _ => destruct H as [H | H]
  end;
  match goal with
  | H : Number _ = JNaN |- _ => rewrite H; rewrite ?js_mul_NaN_l, ?js_add_NaN_l, ?js_add_NaN_r;
                                reflexivity
  end.

(** *** [activeSegment] *)

Lemma firstn_S_nth_error {A : Type} (l : list A) (n : nat) (x : A) :
  nth_error l n = Some x -> firstn (S n) l = firstn n l ++ [x].
Proof.
  revert n; induction l as [|y l IH]; intros [|n] H; simpl in *; try discriminate.
  - injection H as ->; reflexivity.
  - rewrite (IH n H); reflexivity.
Qed.

Lemma scan_down_find (transcript : list TranscriptSegment) (t : jsnum) (n : nat) :
  (n <= length transcript)%nat ->
  scan_down transcript t n =
  find (fun s => js_le (parseTimestamp (timestamp s)) t) (rev (firstn n transcript)).
Proof.
  induction n as [|n IH]; intros Hn; [reflexivity|].
  destruct (nth_error transcript n) as [x|] eqn:Hx.
  - rewrite (firstn_S_nth_error _ _ _ Hx), rev_app_distr. simpl.
    rewrite Hx, IH by lia. reflexivity.
  - apply nth_error_None in Hx. lia.
Qed.

Lemma find_none_all {A : Type} (f : A -> bool) (l : list A) :
  (forall x, In x l -> f x = false) -> find f l = None.
Proof.
  induction l as [|y l IH]; intros H; simpl; [reflexivity|].
  rewrite (H y (or_introl eq_refl)). apply IH. intros x Hx; apply H; right; exact Hx.
Qed.

Lemma js_le_after_lt (t : jsnum) (q0 q : Q) :
  js_lt t (JNum q0) = true -> (q0 <= q)%Q -> js_le (JNum q) t = false.
Proof.
  destruct t as [r | [] |]; simpl; try discriminate; try reflexivity.
  intros H Hle. apply negb_true_iff in H.
  destruct (Qle_bool q r) eqn:E; [|reflexivity].
  apply Qle_bool_iff in E.
  assert (Hq : (q0 <= r)%Q) by (eapply Qle_trans; eassumption).
  apply Qle_bool_iff in Hq. congruence.
Qed.

(** *** Search *)

Lemma startsWith_spec (s p : string) :
  startsWith s p = true <-> exists b, s = (p ++ b)%string.
Proof.
  revert s; induction p as [|c p IH]; intros s; simpl.
  - split; [intros _; exists s; reflexivity | reflexivity].
  - destruct s as [|d s].
    + split; [discriminate | intros [b Hb]; discriminate].
    + rewrite andb_true_iff, IH, Ascii.eqb_eq. split.
      * intros [-> [b ->]]; exists b; reflexivity.
      * intros [b Hb]; injection Hb as -> ->; split; [reflexivity | exists b; reflexivity].
Qed.

Lemma includes_spec (s q : string) :
  includes s q = true <-> exists a b, s = (a ++ q ++ b)%string.
Proof.
  induction s as [|c s IH]; simpl.
  - rewrite orb_false_r, startsWith_spec. split.
    + intros [b Hb]; exists "", b; exact Hb.
    + intros [a [b Hab]]. destruct a; [exists b; exact Hab | discriminate].
  - rewrite orb_true_iff, startsWith_spec, IH. split.
    + intros [[b Hb] | [a [b Hab]]].
      * exists "", b; exact Hb.
      * exists (String c a), b; rewrite Hab; reflexivity.
    + intros [a [b Hab]]. destruct a as [|d a].
      * left; exists b; exact Hab.
      * right; injection Hab as -> Hab; exists a, b; exact Hab.
Qed.

Lemma filter_subseq {A : Type} (f : A -> bool) (l : list A) : subseq (filter f l) l.
Proof.
  induction l as [|x l IH]; simpl; [constructor|].
  destruct (f x); constructor; exact IH.
Qed.

(** C2 (amended). [parseTimestamp] splits on [:] and maps every piece
    through [Number]: two pieces give [minutes * 60 + seconds], three give
    [hours * 3600 + minutes * 60 + seconds], in JavaScript arithmetic; any
    other number of pieces (the empty string included) gives 0; a
    non-numeric piece of a two- or three-piece string makes the result
    NaN.  The four examples of the specification hold. *)
Theorem parseTimestamp_spec (a b c : string)
  (Ha : has_char ":" a = false) (Hb : has_char ":" b = false)
  (Hc : has_char ":" c = false) :
  parseTimestamp (a ++ ":" ++ b)%string = js_add (js_mul (Number a) (jn 60)) (Number b) /\
  parseTimestamp (a ++ ":" ++ b ++ ":" ++ c)%string =
    js_add (js_add (js_mul (Number a) (jn 3600)) (js_mul (Number b) (jn 60))) (Number c) /\
  ((Number a = JNaN \/ Number b = JNaN) -> parseTimestamp (a ++ ":" ++ b)%string = JNaN) /\
  ((Number a = JNaN \/ Number b = JNaN \/ Number c = JNaN) ->
     parseTimestamp (a ++ ":" ++ b ++ ":" ++ c)%string = JNaN) /\
  (forall s, length (split ":" s) <> 2%nat -> length (split ":" s) <> 3%nat ->
     parseTimestamp s = jn 0) /\
  parseTimestamp "05:30" = jn 330 /\ parseTimestamp "1:02:03" = jn 3723 /\
  parseTimestamp "" = jn 0 /\ parseTimestamp "abc" = jn 0.
Proof.
  assert (H2 : parseTimestamp (a ++ ":" ++ b)%string =
               js_add (js_mul (Number a) (jn 60)) (Number b)).
  { unfold parseTimestamp.
    destruct (string_dec _ "") as [E|_]; [exfalso; exact (append_nonempty_sep a b E)|].
    rewrite split_two by assumption. reflexivity. }
  assert (H3 : parseTimestamp (a ++ ":" ++ b ++ ":" ++ c)%string =
    js_add (js_add (js_mul (Number a) (jn 3600)) (js_mul (Number b) (jn 60))) (Number c)).
  { unfold parseTimestamp.
    destruct (string_dec _ "") as [E|_]; [exfalso; exact (append_nonempty_sep a _ E)|].
    rewrite split_three by assumption. reflexivity. }
  split; [exact H2|]. split; [exact H3|].
  split; [intros HN; rewrite H2; nan_simpl|].
  split; [intros HN; rewrite H3; nan_simpl|].
  split.
  - intros s N2 N3. unfold parseTimestamp.
    destruct (string_dec s "") as [_|_]; [reflexivity|].
    destruct (split ":" s) as [|x0 [|x1 [|x2 [|x3 l]]]]; simpl in *;
      try reflexivity; congruence.
  - repeat split; vm_compute; reflexivity.
Qed.

(** C2: a non-numeric token does not give 0. *)
Lemma parseTimestamp_nonnumeric_token_is_NaN :
  parseTimestamp "a:30" = JNaN /\ parseTimestamp "a:30" <> jn 0.
Proof. split; vm_compute; [reflexivity | discriminate]. Qed.

Lemma parseTimestamp_spec_witness :
  has_char ":" "05" = false /\ has_char ":" "30" = false /\ has_char ":" "00" = false /\
  parseTimestamp ("05" ++ ":" ++ "30")%string = js_add (js_mul (Number "05") (jn 60)) (Number "30").
Proof.
  split; [reflexivity|]. split; [reflexivity|]. split; [reflexivity|].
  exact (proj1 (parseTimestamp_spec "05" "30" "00" eq_refl eq_refl eq_refl)).
Defined.

(** C3. [activeSegment] returns the first segment met when scanning from
    the last index down whose start is [<= t], none when there is none;
    on a non-empty transcript sorted by start time, a time before the
    first start gives none and a time at or after the last start gives the
    last segment. *)
Theorem activeSegment_spec (transcript : list TranscriptSegment) (t : jsnum) :
  activeSegment transcript t = find (fun seg => js_le (start seg) t) (rev transcript) /\
  (forall first rest qs,
     transcript = first :: rest -> map start transcript = map JNum qs -> Sorted Qle qs ->
     js_lt t (start first) = true -> activeSegment transcript t = None) /\
  (forall init lastseg,
     transcript = init ++ [lastseg] -> js_le (start lastseg) t = true ->
     activeSegment transcript t = Some lastseg).
Proof.
  assert (H1 : activeSegment transcript t =
               find (fun seg => js_le (start seg) t) (rev transcript)).
  { unfold activeSegment. destruct transcript as [|s0 tr]; [reflexivity|].
    rewrite scan_down_find by lia. rewrite firstn_all. reflexivity. }
  split; [exact H1|]. split.
  - intros first rest qs -> Hmap Hsorted Hlt. rewrite H1.
    apply find_none_all. intros x Hx. apply in_rev in Hx.
    destruct qs as [|q0 qs']; [discriminate|].
    simpl in Hmap. injection Hmap as Hfirst Hrest.
    apply Sorted_StronglySorted in Hsorted; [|exact Qle_trans].
    inversion Hsorted as [|? ? _ Hall]; subst.
    rewrite Hfirst in Hlt.
    destruct Hx as [<- | Hx].
    + rewrite Hfirst. apply (js_le_after_lt t q0 q0 Hlt (Qle_refl q0)).
    + assert (Hin : In (start x) (map JNum qs')) by (rewrite <- Hrest; apply in_map; exact Hx).
      apply in_map_iff in Hin as [q [Hq Hqin]]. rewrite <- Hq.
      apply (js_le_after_lt t q0 q Hlt). rewrite Forall_forall in Hall. apply Hall, Hqin.
  - intros init lastseg -> Hle. rewrite H1, rev_app_distr. simpl. rewrite Hle. reflexivity.
Qed.

Lemma activeSegment_spec_witness :
  activeSegment [mkSeg "A" "hi" "00:05" None; mkSeg "B" "yo" "00:10" None] (jn 2) = None /\
  activeSegment [mkSeg "A" "hi" "00:05" None; mkSeg "B" "yo" "00:10" None] (jn 12)
    = Some (mkSeg "B" "yo" "00:10" None).
Proof.
  split.
  - apply (proj1 (proj2 (activeSegment_spec
             [mkSeg "A" "hi" "00:05" None; mkSeg "B" "yo" "00:10" None] (jn 2)))
           (mkSeg "A" "hi" "00:05" None) [mkSeg "B" "yo" "00:10" None]
           [inject_Z 5; inject_Z 10]).
    + reflexivity.
    + vm_compute. reflexivity.
    + repeat constructor. vm_compute. discriminate.
    + vm_compute. reflexivity.
  - apply (proj2 (proj2 (activeSegment_spec
             [mkSeg "A" "hi" "00:05" None; mkSeg "B" "yo" "00:10" None] (jn 12)))
           [mkSeg "A" "hi" "00:05" None]).
    + reflexivity.
    + vm_compute. reflexivity.
Defined.

(** C4. Search: an empty or whitespace-only query returns the transcript
    itself; any other query keeps, in their original order, exactly the
    segments whose speaker or text contains the query ignoring case (so
    ["PRICE"] finds ["price"]). *)
Theorem filteredTranscript_spec (transcript : list TranscriptSegment) (searchQuery : string) :
  (trim searchQuery = "" -> filteredTranscript transcript searchQuery = transcript) /\
  (trim searchQuery <> "" ->
     subseq (filteredTranscript transcript searchQuery) transcript /\
     (forall seg, In seg (filteredTranscript transcript searchQuery) <->
        In seg transcript /\
        (ci_contains (speaker seg) searchQuery \/ ci_contains (text seg) searchQuery))) /\
  filteredTranscript [mkSeg "Prospect" "What is the price?" "00:10" None] "PRICE"
    = [mkSeg "Prospect" "What is the price?" "00:10" None].
Proof.
  split; [|split].
  - intros E. unfold filteredTranscript. rewrite E. reflexivity.
  - intros E. unfold filteredTranscript.
    destruct (string_dec (trim searchQuery) "") as [E'|_]; [contradiction|].
    split; [apply filter_subseq|].
    intros seg. rewrite filter_In, orb_true_iff, !includes_spec. unfold ci_contains.
    tauto.
  - vm_compute. reflexivity.
Qed.

Lemma filteredTranscript_spec_witness :
  trim "price" <> "" /\
  subseq (filteredTranscript [mkSeg "Prospect" "The Price is high" "00:10" None] "price")
         [mkSeg "Prospect" "The Price is high" "00:10" None].
Proof.
  split; [vm_compute; discriminate|].
  apply (proj1 (proj1 (proj2 (filteredTranscript_spec
           [mkSeg "Prospect" "The Price is high" "00:10" None] "price")) ltac:(vm_compute; discriminate))).
Defined.

(** *** Highlighting *)

Lemma escaped_is_syntax (c : ascii) : is_escaped_char c = is_syntax_char c.
Proof. destruct c as [[] [] [] [] [] [] [] []]; reflexivity. Qed.









Section SplitLoop.
Variable lit : list ascii.
Hypothesis Hlit : lit <> [].






End SplitLoop.


























End TranscriptFacts.

(* ------------------------------------------------------------------ *)
(** ** The analysis service *)

Module GeminiFacts.
Import Effects Gemini.






End GeminiFacts.

(* ------------------------------------------------------------------ *)
(** ** The persisted controller *)

Module PersistFacts.
Import JsString JsNumber Transcript Effects AppCommon PersistApp.

(** C10: with no signed-in user, [handleFileSelect] returns at once and
    leaves every part of the state unchanged: no application field, no
    object URL, no encoding, upload, analysis, insert or history request. *)
Theorem handleFileSelect_signed_out_noop (env : Env) (file : File) (st : St) :
  user st = None ->
  handleFileSelect env file st = (st, Ok tt).
Proof.
  intros Hu. unfold handleFileSelect, bind, gets. rewrite Hu. reflexivity.
Qed.

Lemma handleFileSelect_signed_out_noop_witness :
  let st := set_user None (signed_in (mkUser "u1")) in
  handleFileSelect (mkEnv (Ok tt) (Ok ("AAAA", "01:00"))
                      (Ok (mkResult "s" [] "v" None "demo")) 7 None None (fun p => p))
                   (mkFile "call.mp3" 1000 42 "audio/mpeg") st = (st, Ok tt).
Proof.
  intros st. apply handleFileSelect_signed_out_noop. reflexivity.
Defined.

(** Unfolds a handler run into its final record. *)
Ltac run_handler :=
  unfold exec, handleFileSelect, handleReset, pipeline, onFailure, createObjectURL,
    revokeObjectURL, analyzeSalesCall, upload, insert, fetchHistory, attempt, try_catch,
    bind, ret, throw, lift, modify, gets; cbn.

(** C6: for a signed-in user, a selection ends in [SUCCESS] or [ERROR];
    it ends in [SUCCESS] exactly when the object URL, the encoding, the
    analysis and the database insert all succeed, whatever the storage
    upload returned; a failed upload with a successful run leaves its
    warning in the toast; a failed database insert after a successful
    analysis ends the run in [ERROR] with the database error's message
    (the generic message when that one is empty). *)
Theorem handleFileSelect_outcome (env : Env) (file : File) (st : St) (u : User) :
  user st = Some u ->
  let st' := exec (handleFileSelect env file) st in
  (appState st' = SUCCESS \/ appState st' = ERROR) /\
  (appState st' = SUCCESS <->
     is_ok (env_url env) && is_ok (env_encode env) && is_ok (env_analyze env) = true /\
     env_db_error env = None) /\
  (forall m, env_upload_error env = Some m -> appState st' = SUCCESS ->
     toastMessage st' = Some (uploadWarning m)) /\
  (forall m, env_db_error env = Some m ->
     is_ok (env_url env) && is_ok (env_encode env) && is_ok (env_analyze env) = true ->
     appState st' = ERROR /\
     errorMsg st' = Some (or_default m "Something went wrong. Please try again.")).
Proof.
  intros Hu st'. subst st'.
  destruct env as [[t|e1] [[b d]|e2] [r|e3] now [um|] [dm|] pu];
    run_handler; rewrite Hu; cbn;
    repeat split; intros; try discriminate; try congruence; auto;
    try (destruct H; discriminate).
Qed.

Definition demo_result : AnalysisResult := mkResult "summary" [] "Likely to close" (Some 20%Z) "demo".

Definition demo_file : File := mkFile "call.mp3" 1000 42 "audio/mpeg".

(** Every external operation succeeds, except as given. *)
Definition demo_env (upload_error db_error : option string) : Env :=
  mkEnv (Ok tt) (Ok ("AAAA", "01:00")) (Ok demo_result) 7 upload_error db_error
        (fun p => ("https://project.supabase.co/storage/v1/object/public/calls/" ++ p)%string).

Lemma handleFileSelect_outcome_witness :
  user (signed_in (mkUser "u1")) = Some (mkUser "u1") /\
  appState (exec (handleFileSelect (demo_env (Some "Bucket not found") None) demo_file)
                 (signed_in (mkUser "u1"))) = SUCCESS.
Proof.
  split; [reflexivity|].
  destruct (handleFileSelect_outcome (demo_env (Some "Bucket not found") None) demo_file
              (signed_in (mkUser "u1")) (mkUser "u1") eq_refl) as [_ [H _]].
  apply H. split; reflexivity.
Defined.

(** Against C6: a failed database insert aborts the run into [ERROR] with
    the database error's message, although analysis succeeded. *)
Theorem handleFileSelect_db_error_aborts :
  let st' := exec (handleFileSelect (demo_env None (Some "relation calls does not exist")) demo_file)
                  (signed_in (mkUser "u1")) in
  appState st' = ERROR /\ errorMsg st' = Some "relation calls does not exist" /\
  analyze_calls st' = [("AAAA", "audio/mpeg")].
Proof. vm_compute. auto. Qed.

(** C8 (against): after a successful selection and a reset, the object URL
    created for the selection is still live and no longer bound to the
    player: the success path replaces it by the storage URL without
    revoking it, and the reset revokes only the storage URL. *)
Theorem select_then_reset_leaks_object_url (env : Env) (file : File) (st : St) (u : User)
    (b d : string) (r : AnalysisResult) :
  user st = Some u ->
  env_url env = Ok tt -> env_encode env = Ok (b, d) -> env_analyze env = Ok r ->
  env_db_error env = None ->
  let st2 := exec handleReset (exec (handleFileSelect env file) st) in
  audioUrl st2 = None /\
  live (browser st2) = next_blob (browser st) :: live (browser st) /\
  revoked (browser st2) =
    Remote (env_public_url env
              (user_id u ++ "/" ++ Z_to_string (env_now env) ++ "." ++ fileExt (file_name file)))
    :: revoked (browser st).
Proof.
  intros Hu H1 H2 H3 H4 st2. subst st2.
  destruct env as [url enc an now up db pu]; cbn in H1, H2, H3, H4; subst.
  run_handler; rewrite Hu; cbn.
  destruct up; cbn; auto.
Qed.

(** The analysis calls of one selection: one call exactly when a user is
    signed in and the object URL and the encoding succeed. *)
Lemma handleFileSelect_calls (env : Env) (file : File) (st : St) :
  analyze_calls (exec (handleFileSelect env file) st) =
  match user st, env_url env, env_encode env with
  | Some _, Ok _, Ok (b, _) => (b, file_type file) :: analyze_calls st
  | _, _, _ => analyze_calls st
  end.
Proof.
  destruct env as [[t|e1] [[b d]|e2] [r|e3] now [um|] [dm|] pu];
    run_handler; destruct (user st); cbn; reflexivity.
Qed.

Lemma handleFileSelect_user (env : Env) (file : File) (st : St) :
  user (exec (handleFileSelect env file) st) = user st.
Proof.
  destruct env as [[t|e1] [[b d]|e2] [r|e3] now [um|] [dm|] pu];
    run_handler; destruct (user st) eqn:Hu; cbn; congruence.
Qed.

Lemma select_then_reset_leaks_object_url_witness :
  live (browser (exec handleReset (exec (handleFileSelect (demo_env None None) demo_file)
                                        (signed_in (mkUser "u1"))))) = [0]%nat.
Proof.
  destruct (select_then_reset_leaks_object_url (demo_env None None) demo_file
              (signed_in (mkUser "u1")) (mkUser "u1") "AAAA" "01:00" demo_result
              eq_refl eq_refl eq_refl eq_refl eq_refl) as [_ [H _]].
  rewrite H. reflexivity.
Defined.

End PersistFacts.

(* ------------------------------------------------------------------ *)
(** ** The in-memory-cache controller *)

Module CacheFacts.
Import JsString JsNumber Transcript Effects AppCommon CacheApp.

#[local] Arguments map_set {V} k v m : simpl never.
#[local] Arguments cacheKey file : simpl never.

Ltac run_cache :=
  unfold step, exec, handleFileSelect, handleRecentSelect, handleReset, onFailure,
    createObjectURL, revokeObjectURL, analyzeSalesCall, attempt, try_catch,
    bind, ret, throw, lift, modify, gets; cbn.

(** Splits a run on the outcomes the environment gives. *)
Ltac case_env env :=
  destruct env as [[t|e1] [[b d]|e2] [r|e3] now up db pu]; run_cache.

Lemma map_get_filter {V : Type} (k k' : string) (m : list (string * V)) :
  k <> k' -> map_get k (filter (fun p => negb (String.eqb k' (fst p))) m) = map_get k m.
Proof.
  intros Hne. induction m as [|[k0 v0] m IH]; cbn; [reflexivity|].
  destruct (String.eqb k' k0) eqn:E; cbn.
  - apply String.eqb_eq in E. subst k0.
    destruct (String.eqb k k') eqn:E2; [apply String.eqb_eq in E2; contradiction|exact IH].
  - rewrite IH. reflexivity.
Qed.

Lemma map_get_set {V : Type} (k k' : string) (v : V) (m : list (string * V)) :
  map_get k (map_set k' v m) = if String.eqb k k' then Some v else map_get k m.
Proof.
  unfold map_set. cbn. destruct (String.eqb k k') eqn:E; [reflexivity|].
  apply map_get_filter. intro H. subst. rewrite String.eqb_refl in E. discriminate.
Qed.

(** A present cache entry is never removed or replaced: the only write
    happens on a miss for its own key. *)
Lemma step_keeps_entry (env : Env) (e : event) (st : St) (k : string) (c : CachedAnalysis) :
  map_get k (analysisCache st) = Some c ->
  map_get k (analysisCache (step env e st)) = Some c.
Proof.
  intros Hk. destruct e as [file|key|].
  - case_env env; auto;
      destruct (map_get (cacheKey file) (analysisCache st)) eqn:Hm; cbn; auto.
    rewrite map_get_set. destruct (String.eqb k (cacheKey file)) eqn:E; auto.
    apply String.eqb_eq in E. subst. congruence.
  - case_env env; destruct (map_get key (analysisCache st)); cbn; auto.
  - run_cache. destruct (audioUrl st); cbn; auto.
Qed.

Lemma run_keeps_entry (evs : list (Env * event)) (st : St) (k : string) (c : CachedAnalysis) :
  map_get k (analysisCache st) = Some c ->
  map_get k (analysisCache (run evs st)) = Some c.
Proof.
  revert st. induction evs as [|[env e] evs IH]; intros st Hk; cbn; auto.
  apply IH, step_keeps_entry, Hk.
Qed.

Lemma cacheKey_fingerprint (f g : File) :
  same_fingerprint f g -> cacheKey f = cacheKey g.
Proof. intros [H1 [H2 H3]]. unfold cacheKey. rewrite H1, H2, H3. reflexivity. Qed.

(** A selection that reaches [SUCCESS] leaves its result and duration in
    the cache under its key. *)
Lemma success_cached (env : Env) (file : File) (st : St) :
  appState (step env (SelectFile file) st) = SUCCESS ->
  exists c, map_get (cacheKey file) (analysisCache (step env (SelectFile file) st)) = Some c /\
            analysisData (step env (SelectFile file) st) = Some (c_result c) /\
            duration (step env (SelectFile file) st) = c_duration c.
Proof.
  case_env env; try discriminate;
    destruct (map_get (cacheKey file) (analysisCache st)) as [c|] eqn:Hm; cbn;
    try discriminate; intros _; eauto.
  eexists. rewrite map_get_set, String.eqb_refl. eauto.
Qed.

(** A selection whose key is cached and whose object URL is created
    reaches [SUCCESS] without an analysis call, rebinding the entry. *)
Lemma cached_select (env : Env) (file : File) (st : St) (c : CachedAnalysis) :
  map_get (cacheKey file) (analysisCache st) = Some c ->
  env_url env = Ok tt ->
  appState (step env (SelectFile file) st) = SUCCESS /\
  analyze_calls (step env (SelectFile file) st) = analyze_calls st /\
  analysisData (step env (SelectFile file) st) = Some (c_result c) /\
  duration (step env (SelectFile file) st) = c_duration c.
Proof.
  intros Hm Hu. case_env env; try discriminate; rewrite Hm; cbn; auto.
Qed.

Lemma select_calls_at_most_one (env : Env) (file : File) (st : St) :
  (length (analyze_calls (step env (SelectFile file) st)) <= S (length (analyze_calls st)))%nat.
Proof.
  case_env env; try lia;
    destruct (map_get (cacheKey file) (analysisCache st)); cbn; lia.
Qed.
Lemma existsb_key (k : string) (l : list RecentUpload) :
  existsb (fun item => String.eqb (r_cacheKey item) k) l = true <-> In k (map r_cacheKey l).
Proof.
  rewrite existsb_exists, in_map_iff. split.
  - intros [x [Hx Hk]]. apply String.eqb_eq in Hk. eauto.
  - intros [x [Hk Hx]]. exists x. split; [exact Hx|]. apply String.eqb_eq, Hk.
Qed.

Lemma add_recent_present (k n d : string) (t : Z) (l : list RecentUpload) :
  In k (map r_cacheKey l) -> addToRecentUploads k n d t l = l.
Proof. intros H. unfold addToRecentUploads. apply existsb_key in H. rewrite H. reflexivity. Qed.

Lemma add_recent_absent (k n d : string) (t : Z) (l : list RecentUpload) :
  ~ In k (map r_cacheKey l) -> addToRecentUploads k n d t l = mkRecent n d t k :: l.
Proof.
  intros H. unfold addToRecentUploads.
  destruct (existsb _ l) eqn:E; [apply existsb_key in E; contradiction|reflexivity].
Qed.

Lemma add_recent_nodup (k n d : string) (t : Z) (l : list RecentUpload) :
  NoDup (map r_cacheKey l) -> NoDup (map r_cacheKey (addToRecentUploads k n d t l)).
Proof.
  intros H. destruct (in_dec string_dec k (map r_cacheKey l)) as [Hin|Hin].
  - rewrite add_recent_present; assumption.
  - rewrite add_recent_absent by assumption. cbn. constructor; assumption.
Qed.

(** The recent list changes only through [addToRecentUploads]. *)
Lemma step_recent (env : Env) (e : event) (st : St) :
  recentUploads (step env e st) = recentUploads st \/
  exists k n d t, recentUploads (step env e st) = addToRecentUploads k n d t (recentUploads st).
Proof.
  destruct e as [file|key|].
  - case_env env; auto;
      destruct (map_get (cacheKey file) (analysisCache st)); cbn; eauto 6.
  - case_env env; destruct (map_get key (analysisCache st)); cbn; auto.
  - run_cache. destruct (audioUrl st); cbn; auto.
Qed.

Lemma reachable_recent_nodup (st : St) :
  reachable st -> NoDup (map r_cacheKey (recentUploads st)).
Proof.
  induction 1 as [|env e st _ IH]; [constructor|].
  destruct (step_recent env e st) as [H|[k [n [d [t H]]]]]; rewrite H;
    [exact IH|apply add_recent_nodup, IH].
Qed.

(** C1 (amended): once a selection of a file reaches [SUCCESS], a later
    selection of a file with the same fingerprint, after any events, whose
    object URL is created, reaches [SUCCESS] without an analysis call and
    rebinds the first run's result and duration; every selection issues
    at most one analysis call.  The persisted variant has no cache: a
    selection calls the analysis once when a user is signed in and the
    object URL and the encoding succeed, and not at all otherwise, so
    selecting the same file twice there calls it twice. *)
Theorem repeated_selection_hits_cache (env1 env2 : Env) (f g : File) (st0 : St)
    (evs : list (Env * event)) :
  same_fingerprint f g ->
  env_url env2 = Ok tt ->
  appState (step env1 (SelectFile f) st0) = SUCCESS ->
  let st1 := step env1 (SelectFile f) st0 in
  let st2 := run evs st1 in
  let st3 := step env2 (SelectFile g) st2 in
  (length (analyze_calls st1) <= S (length (analyze_calls st0)))%nat /\
  appState st3 = SUCCESS /\ analyze_calls st3 = analyze_calls st2 /\
  analysisData st3 = analysisData st1 /\ duration st3 = duration st1 /\
  (forall env f st,
     (length (analyze_calls (step env (SelectFile f) st)) <= S (length (analyze_calls st)))%nat) /\
  (forall env f (pst : PersistApp.St),
     PersistApp.analyze_calls (exec (PersistApp.handleFileSelect env f) pst) =
     match PersistApp.user pst, env_url env, env_encode env with
     | Some _, Ok _, Ok (b, _) => (b, file_type f) :: PersistApp.analyze_calls pst
     | _, _, _ => PersistApp.analyze_calls pst
     end) /\
  (forall env f (pst : PersistApp.St) u b d,
     PersistApp.user pst = Some u -> env_url env = Ok tt -> env_encode env = Ok (b, d) ->
     PersistApp.analyze_calls (exec (PersistApp.handleFileSelect env f)
                                 (exec (PersistApp.handleFileSelect env f) pst)) =
     (b, file_type f) :: (b, file_type f) :: PersistApp.analyze_calls pst).
Proof.
  intros Hfp Hurl Hs st1 st2 st3.
  destruct (success_cached env1 f st0 Hs) as [c [Hc [Hd Hdu]]].
  fold st1 in Hc, Hd, Hdu.
  pose proof (run_keeps_entry evs st1 _ _ Hc) as Hc2. fold st2 in Hc2.
  rewrite (cacheKey_fingerprint f g Hfp) in Hc2.
  destruct (cached_select env2 g st2 c Hc2 Hurl) as [H1 [H2 [H3 H4]]].
  repeat split; try assumption.
  - apply select_calls_at_most_one.
  - unfold st3. rewrite H3, Hd. reflexivity.
  - unfold st3. rewrite H4, Hdu. reflexivity.
  - intros. apply select_calls_at_most_one.
  - intros. apply PersistFacts.handleFileSelect_calls.
  - intros env f0 pst u b d Hu Hl He.
    rewrite PersistFacts.handleFileSelect_calls, PersistFacts.handleFileSelect_user, Hu, Hl, He.
    rewrite PersistFacts.handleFileSelect_calls, Hu, Hl, He. reflexivity.
Qed.

Definition demo_result : AnalysisResult := mkResult "summary" [] "Likely to close" (Some 20%Z) "demo".

Definition demo_file : File := mkFile "call.mp3" 1000 42 "audio/mpeg".

Definition demo_env (analysis : res AnalysisResult) : Env :=
  mkEnv (Ok tt) (Ok ("AAAA", "01:00")) analysis 7 None None (fun p => p).

Lemma repeated_selection_hits_cache_witness :
  let st1 := step (demo_env (Ok demo_result)) (SelectFile demo_file) init in
  let st3 := step (demo_env (Throw "must not be called")) (SelectFile demo_file)
                  (run [(demo_env (Ok demo_result), Reset)] st1) in
  appState st3 = SUCCESS /\ analyze_calls st3 = analyze_calls st1.
Proof.
  destruct (repeated_selection_hits_cache (demo_env (Ok demo_result))
              (demo_env (Throw "must not be called")) demo_file demo_file init
              [(demo_env (Ok demo_result), Reset)]) as [_ [H1 [H2 _]]].
  - split; [reflexivity|split; reflexivity].
  - reflexivity.
  - vm_compute. reflexivity.
  - split; [exact H1|]. rewrite H2. reflexivity.
Defined.

(** Against C1: a selection whose analysis fails caches nothing, so
    selecting the same file again issues a second analysis call. *)
Theorem failed_selection_is_reanalysed :
  let st1 := step (demo_env (Throw "429 Resource exhausted")) (SelectFile demo_file) init in
  let st2 := step (demo_env (Ok demo_result)) (SelectFile demo_file) st1 in
  appState st1 = ERROR /\ appState st2 = SUCCESS /\ length (analyze_calls st2) = 2%nat.
Proof. vm_compute. auto. Qed.

(** C9: in every reachable state the recent-sessions list holds each
    cache key at most once; adding a key already listed leaves the list
    as it is, adding a new key puts its entry in front. *)
Theorem recentUploads_no_duplicates (st : St) :
  reachable st ->
  NoDup (map r_cacheKey (recentUploads st)) /\
  (forall k n d t, In k (map r_cacheKey (recentUploads st)) ->
     addToRecentUploads k n d t (recentUploads st) = recentUploads st) /\
  (forall k n d t, ~ In k (map r_cacheKey (recentUploads st)) ->
     addToRecentUploads k n d t (recentUploads st) = mkRecent n d t k :: recentUploads st).
Proof.
  intros Hr. split; [apply reachable_recent_nodup, Hr|].
  split; intros; [apply add_recent_present|apply add_recent_absent]; assumption.
Qed.

Lemma recentUploads_no_duplicates_witness :
  NoDup (map r_cacheKey (recentUploads
           (step (demo_env (Ok demo_result)) (SelectFile demo_file)
              (step (demo_env (Ok demo_result)) (SelectFile demo_file) init)))).
Proof.
  exact (proj1 (recentUploads_no_duplicates _
           (reach_step _ _ _ (reach_step (demo_env (Ok demo_result)) (SelectFile demo_file) _
                                reach_init)))).
Defined.

End CacheFacts.

(* ------------------------------------------------------------------ *)
(** ** The transcript panel *)

Module TranscriptPanelFacts.
Import JsString JsNumber Transcript TranscriptPanel.

Lemma lower_salesperson : toLowerCase "Salesperson" = "salesperson".
Proof. reflexivity. Qed.

Lemma lower_prospect : toLowerCase "Prospect" = "prospect".
Proof. reflexivity. Qed.

(** X1: [getDisplaySpeaker] maps a name equal to [speaker a] or [speaker 1]
    ignoring letter case to [Salesperson], one equal to [speaker b] or
    [speaker 2] to [Prospect], keeps every other name, and applying it
    twice is applying it once. *)
Theorem getDisplaySpeaker_spec (s : string) :
  (In (toLowerCase s) ["speaker a"; "speaker 1"] -> getDisplaySpeaker s = "Salesperson") /\
  (In (toLowerCase s) ["speaker b"; "speaker 2"] -> getDisplaySpeaker s = "Prospect") /\
  (~ In (toLowerCase s) ["speaker a"; "speaker 1"; "speaker b"; "speaker 2"] ->
     getDisplaySpeaker s = s) /\
  getDisplaySpeaker (getDisplaySpeaker s) = getDisplaySpeaker s.
Proof.
  unfold getDisplaySpeaker.
  destruct (String.eqb (toLowerCase s) "speaker a") eqn:Ea;
  destruct (String.eqb (toLowerCase s) "speaker 1") eqn:E1;
  destruct (String.eqb (toLowerCase s) "speaker b") eqn:Eb;
  destruct (String.eqb (toLowerCase s) "speaker 2") eqn:E2; cbn;
  repeat match goal with
         | H : String.eqb _ _ = true |- _ => apply String.eqb_eq in H
         | H : String.eqb _ _ = false |- _ => apply String.eqb_neq in H
         end;
  try (rewrite E1 in *); try (rewrite Ea in *); try (rewrite Eb in *); try (rewrite E2 in *);
  repeat split; intros; cbn in *; try reflexivity;
  try (exfalso; intuition congruence);
  try (rewrite ?String.eqb_refl; cbn; reflexivity).
  all: repeat match goal with
              | H : ?x <> ?y |- context [String.eqb ?x ?y] =>
                  rewrite (proj2 (String.eqb_neq x y) H)
              end; cbn; reflexivity.
Qed.
Lemma stats_get_set (k k' : string) (v : jsnum) (m : list (string * jsnum)) :
  stats_get k (stats_set k' v m) = if String.eqb k k' then Some v else stats_get k m.
Proof.
  induction m as [|[k0 v0] m IH]; cbn.
  - destruct (String.eqb k k'); reflexivity.
  - destruct (String.eqb k' k0) eqn:E; cbn.
    + apply String.eqb_eq in E. subst k0. destruct (String.eqb k k'); reflexivity.
    + destruct (String.eqb k k0) eqn:E2; rewrite ?IH.
      * apply String.eqb_eq in E2. subst k0.
        destruct (String.eqb k k') eqn:E3; [|reflexivity].
        apply String.eqb_eq in E3. subst. rewrite String.eqb_refl in E. discriminate.
      * reflexivity.
Qed.

Lemma stats_fold (name : string) (ts : list TranscriptSegment) (st : list (string * jsnum)) :
  stats_get name (fold_left stats_step ts st) =
  fold_left acc_step (contributions name ts) (stats_get name st).
Proof.
  revert st. induction ts as [|t ts IH]; intros st; cbn; [reflexivity|].
  rewrite IH. unfold contributions. cbn.
  unfold stats_step. rewrite stats_get_set.
  destruct (String.eqb name (getDisplaySpeaker (speaker t))) eqn:E.
  - apply String.eqb_eq in E. subst name. rewrite String.eqb_refl. reflexivity.
  - destruct (String.eqb (getDisplaySpeaker (speaker t)) name) eqn:E2; [|reflexivity].
    apply String.eqb_eq in E2. subst. rewrite String.eqb_refl in E. discriminate.
Qed.

Lemma js_add_same (x x' y y' : jsnum) :
  js_same x x' -> js_same y y' -> js_same (js_add x y) (js_add x' y').
Proof.
  destruct x as [p|a|], x' as [p'|a'|], y as [q|b|], y' as [q'|b'|]; cbn; intros H1 H2;
    try contradiction; subst; auto.
  - rewrite H1, H2. reflexivity.
  - destruct (Bool.eqb a' b'); cbn; auto.
Qed.

Lemma js_same_trans (x y z : jsnum) : js_same x y -> js_same y z -> js_same x z.
Proof.
  destruct x as [p|a|], y as [q|b|], z as [r|c|]; cbn; intros H1 H2; try contradiction; auto.
  - rewrite H1. exact H2.
  - congruence.
Qed.

Lemma nonneg_add (a d : jsnum) : a <> JNaN -> nonneg a -> d <> JNaN -> nonneg d ->
  js_add a d <> JNaN /\ nonneg (js_add a d).
Proof.
  destruct a as [p|[]|], d as [q|[]|]; cbn; intros; try congruence; try discriminate;
    split; try discriminate; auto.
  unfold Qle in *. cbn in *. apply (Qplus_le_compat 0 p 0 q) in H0; auto.
Qed.

Lemma js_same_nonneg (y a : jsnum) :
  js_same y a -> a <> JNaN -> nonneg a -> y <> JNaN /\ nonneg y.
Proof.
  destruct y as [p|b|], a as [q|c|]; cbn; intros H1 H0 H2; try contradiction; try congruence.
  - split; [discriminate|]. rewrite H1. exact H2.
  - split; [discriminate|]. congruence.
Qed.

Lemma or_zero_same (y : jsnum) : y <> JNaN -> nonneg y -> js_same (or_zero (Some y)) y.
Proof.
  destruct y as [q|b|]; cbn; intros H1 H2; [|destruct b; reflexivity|congruence].
  destruct (Qeq_bool q 0) eqn:E; cbn; [|reflexivity].
  apply Qeq_bool_iff in E. rewrite E. reflexivity.
Qed.

Lemma fold_no_nan (l : list jsnum) : forall (acc : option jsnum) (a : jsnum),
  js_same (or_zero acc) a -> a <> JNaN -> nonneg a ->
  (forall x, In x l -> x <> JNaN /\ nonneg x) -> l <> [] ->
  exists y, fold_left acc_step l acc = Some y /\ js_same y (fold_left js_add l a).
Proof.
  induction l as [|d l IH]; intros acc a Ha Hn Hp Hl Hne; [congruence|].
  destruct (Hl d (or_introl eq_refl)) as [Hd1 Hd2].
  assert (Hs : js_same (js_add (or_zero acc) d) (js_add a d))
    by (apply js_add_same; [exact Ha|destruct d; cbn; auto; reflexivity]).
  destruct (nonneg_add a d Hn Hp Hd1 Hd2) as [Hn' Hp'].
  destruct l as [|d' l].
  - exists (js_add (or_zero acc) d). cbn. split; [reflexivity|exact Hs].
  - cbn [fold_left]. apply IH; auto; [|intros x Hx; apply Hl; right; exact Hx|discriminate].
    destruct (js_same_nonneg _ _ Hs Hn' Hp') as [Hy1 Hy2].
    pose proof (or_zero_same _ Hy1 Hy2) as Hz.
    exact (js_same_trans _ _ _ Hz Hs).
Qed.

Lemma segmentDuration_nonneg (t : TranscriptSegment) : nonneg (segmentDuration t).
Proof.
  unfold segmentDuration, js_max0.
  destruct (js_sub _ _) as [q|[]|]; cbn; auto.
  - destruct (Qle_bool q 0) eqn:E; [apply Qle_refl|].
    apply Qlt_le_weak, Qnot_le_lt. intro H. apply Qle_bool_iff in H. congruence.
  - apply Qle_refl.
Qed.

Lemma acc_nonneg (l : list jsnum) (acc : option jsnum) :
  (forall y, acc = Some y -> nonneg y) -> (forall x, In x l -> nonneg x) ->
  forall y, fold_left acc_step l acc = Some y -> nonneg y.
Proof.
  revert acc. induction l as [|d l IH]; intros acc Ha Hl; cbn; [exact Ha|].
  apply IH; [|intros x Hx; apply Hl; right; exact Hx].
  intros y Hy. injection Hy as <-. pose proof (Hl d (or_introl eq_refl)) as Hd.
  assert (Ho : nonneg (or_zero acc)).
  { destruct acc as [z|]; cbn; [|apply Qle_refl].
    destruct (js_truthy z); [apply Ha; reflexivity|apply Qle_refl]. }
  destruct (or_zero acc) as [p|[]|], d as [q|[]|]; cbn in *; auto; try discriminate.
  apply (Qplus_le_compat 0 p 0 q) in Ho; auto.
Qed.

Lemma js_add_nan_r (x : jsnum) : js_add x JNaN = JNaN.
Proof. destruct x as [|[]|]; reflexivity. Qed.

Lemma acc_step_some (l : list jsnum) (acc : option jsnum) :
  l <> [] -> exists y, fold_left acc_step l acc = Some y.
Proof.
  revert acc. induction l as [|d l IH]; intros acc H; [congruence|].
  cbn [fold_left]. destruct l as [|d1 l1].
  - cbn. eexists; reflexivity.
  - apply IH. intro Hc. inversion Hc.
Qed.

(** X2: for a transcript whose display names are plain keys, the total
    [speakerStats] keeps for a display name exists exactly when a segment
    shows that name, and is [NaN], [+Infinity] or a number [>= 0].  A
    segment whose share is [NaN] (a timestamp that is not a number) makes
    the total [NaN]; the [|| 0] then drops it at the name's next segment,
    so the total is the sum of the shares after the last [NaN] one. *)
Theorem speakerStats_totals (ts : list TranscriptSegment) (stats : list (string * jsnum))
    (name : string) :
  speakerStats ts = Some stats ->
  (stats_get name stats = None <-> contributions name ts = []) /\
  (forall y, stats_get name stats = Some y -> nonneg y) /\
  (forall l0, contributions name ts = l0 ++ [JNaN] -> stats_get name stats = Some JNaN) /\
  (forall l1 l2, contributions name ts = l1 ++ l2 ->
     (l1 = [] \/ exists l0, l1 = l0 ++ [JNaN]) ->
     l2 <> [] -> (forall x, In x l2 -> x <> JNaN) ->
     exists y, stats_get name stats = Some y /\ js_same y (fold_left js_add l2 (jn 0))).
Proof.
  unfold speakerStats. destruct (existsb _ ts); intros H; [discriminate|].
  injection H as <-. rewrite stats_fold. cbn [stats_get].
  assert (Hnn : forall x, In x (contributions name ts) -> nonneg x).
  { unfold contributions. intros x Hx. apply in_map_iff in Hx as [t [<- _]].
    apply segmentDuration_nonneg. }
  split; [|split; [|split]].
  - split; intros Hc; [|rewrite Hc; reflexivity].
    destruct (contributions name ts) as [|d l] eqn:E; [reflexivity|].
    destruct (acc_step_some (d :: l) None ltac:(discriminate)) as [y Hy]. congruence.
  - apply acc_nonneg; [discriminate|exact Hnn].
  - intros l0 Hc. rewrite Hc, fold_left_app. cbn. unfold acc_step. rewrite js_add_nan_r.
    reflexivity.
  - intros l1 l2 Hc Hl1 Hne Hnan. rewrite Hc, fold_left_app.
    assert (Hz : js_same (or_zero (fold_left acc_step l1 None)) (jn 0)).
    { destruct Hl1 as [->|[l0 ->]]; cbn; [reflexivity|].
      rewrite fold_left_app. cbn. unfold acc_step at 1. rewrite js_add_nan_r. reflexivity. }
    apply fold_no_nan; auto; [discriminate|apply Qle_refl|].
    intros x Hx. split; [apply Hnan, Hx|apply Hnn; rewrite Hc; apply in_or_app; right; exact Hx].
Qed.

Definition demo_transcript : list TranscriptSegment :=
  [mkSeg "Speaker A" "Hi, thanks for joining." "00:10" (Some "00:20");
   mkSeg "Prospect" "Sure." "00:20" None;
   mkSeg "SPEAKER A" "Let me share the pricing." "0x:30" None;
   mkSeg "speaker 1" "Any questions?" "00:40" (Some "00:45")].

Lemma speakerStats_totals_witness :
  exists stats, speakerStats demo_transcript = Some stats /\
  exists y, stats_get "Salesperson" stats = Some y /\ js_same y (jn 5).
Proof.
  eexists. split; [vm_compute; reflexivity|].
  destruct (speakerStats_totals demo_transcript _ "Salesperson" ltac:(vm_compute; reflexivity))
    as [_ [_ [_ H]]].
  destruct (H (firstn 2 (contributions "Salesperson" demo_transcript))
              (skipn 2 (contributions "Salesperson" demo_transcript)))
    as [y [Hy Hs]].
  - symmetry. apply firstn_skipn.
  - right. exists (firstn 1 (contributions "Salesperson" demo_transcript)). vm_compute. reflexivity.
  - vm_compute. discriminate.
  - vm_compute. intros x [<-|[]]. discriminate.
  - exists y. split; [exact Hy|]. vm_compute in Hy. injection Hy as <-.
    vm_compute. reflexivity.
Defined.

(** X3: the segment a topic chip seeks to stays visible: it belongs to the
    list filtered by the topic, which the click makes the search query,
    and its timestamp is what is handed to [onSegmentClick]. *)
Theorem topicClick_target_visible (ts : list TranscriptSegment) (topic : string)
    (t : TranscriptSegment) :
  topicTarget ts topic = Some t ->
  In t (filteredTranscript ts topic) /\
  topicClick true ts topic = (Some (timestamp t), topic).
Proof.
  intros Ht. split; [|unfold topicClick; rewrite Ht; reflexivity].
  unfold topicTarget in Ht. destruct (find_some _ _ Ht) as [Hin Hinc].
  unfold filteredTranscript. destruct (string_dec (trim topic) ""); [exact Hin|].
  apply filter_In. split; [exact Hin|]. rewrite Hinc. reflexivity.
Qed.

Lemma topicClick_target_visible_witness :
  In (mkSeg "SPEAKER A" "Let me share the pricing." "0x:30" None)
     (filteredTranscript demo_transcript "Pricing").
Proof.
  exact (proj1 (topicClick_target_visible demo_transcript "Pricing"
                  (mkSeg "SPEAKER A" "Let me share the pricing." "0x:30" None)
                  ltac:(vm_compute; reflexivity))).
Defined.

End TranscriptPanelFacts.

(* ------------------------------------------------------------------ *)
(** ** Seeking from the transcript ([handleSeek] of [src/App.tsx]) *)

Module SeekFacts.
Import JsString JsNumber Transcript Effects AppCommon PersistApp.

Lemma Number_empty : Number "" = jn 0.
Proof. reflexivity. Qed.

(** X4: [handleSeek] moves the player to the start time [parseTimestamp]
    of the transcript view gives the clicked timestamp: when it is a
    finite number the position becomes it and playback is requested;
    when it is [NaN] or infinite (a timestamp that is not a number) the
    assignment throws; without a player element nothing happens. *)
Theorem handleSeek_parseTimestamp (a : Audio) (ts : string) :
  handleSeek None ts = Ok None /\
  match parseTimestamp ts with
  | JNum q => handleSeek (Some a) ts = Ok (Some (mkAudio q true))
  | _ => exists msg, handleSeek (Some a) ts = Throw msg
  end.
Proof.
  split; [reflexivity|].
  assert (E : parseTimestamp ts =
              match map Number (split ":"%char ts) with
              | [p0; p1] => js_add (js_mul p0 (jn 60)) p1
              | [p0; p1; p2] => js_add (js_add (js_mul p0 (jn 3600)) (js_mul p1 (jn 60))) p2
              | _ => jn 0
              end).
  { unfold parseTimestamp. destruct (string_dec ts "") as [->|]; reflexivity. }
  unfold handleSeek. rewrite <- E.
  destruct (parseTimestamp ts) as [q|b|]; eauto.
Qed.

End SeekFacts.

(* ------------------------------------------------------------------ *)
(** ** The in-memory-cache controller: sessions, failures, object URLs *)

Module CacheUIFacts.
Import JsString JsNumber Transcript Effects AppCommon CacheApp.

#[local] Arguments map_set {V} k v m : simpl never.
#[local] Arguments cacheKey file : simpl never.

Ltac run_cache :=
  unfold step, exec, handleFileSelect, handleRecentSelect, handleReset, onFailure,
    createObjectURL, revokeObjectURL, analyzeSalesCall, attempt, try_catch,
    bind, ret, throw, lift, modify, gets; cbn.

Ltac case_env env :=
  destruct env as [[t|e1] [[b d]|e2] [r|e3] now up db pu]; run_cache.

Lemma discipline_init : url_discipline init.
Proof.
  repeat split; cbn; intros; try contradiction; try constructor; discriminate.
Qed.

Lemma remove_single (n : nat) : remove Nat.eq_dec n [n] = [].
Proof. cbn. destruct (Nat.eq_dec n n); [reflexivity|contradiction]. Qed.

(** Adding a fresh handle [nb] to the revoke log keeps the invariant parts. *)
Lemma revoke_fresh (rv : list url) (nb : nat) :
  NoDup rv -> (forall n, In (Blob n) rv -> (n < nb)%nat) ->
  NoDup (Blob nb :: rv) /\ (forall n, In (Blob n) (Blob nb :: rv) -> (n < S nb)%nat).
Proof.
  intros H1 H2. split.
  - constructor; [|exact H1]. intro H. apply H2 in H. lia.
  - intros n [H|H]; [injection H as ->; lia|apply H2 in H; lia].
Qed.

Lemma step_discipline (env : Env) (e : event) (st : St) :
  url_discipline st -> enabled st e = true -> url_discipline (step env e st).
Proof.
  destruct st as [ast dat err fn dur au ru cache sh [lv nb rv] calls].
  unfold url_discipline, enabled. cbn.
  intros [I1 [I2 [I3 [I4 [I5 [I6 I7]]]]]] Hen.
  destruct e as [file|key|].
  - rewrite Hen in I2. specialize (I2 eq_refl). subst au. cbn in I1. subst lv.
    destruct (revoke_fresh rv nb I3 I4) as [R1 R2].
    case_env env; try destruct (map_get (cacheKey file) cache); cbn;
      try (destruct (Nat.eq_dec nb nb) as [_|Hc]; [|exfalso; apply Hc; reflexivity]);
      repeat split; intros; cbn in *; try discriminate; try tauto; try lia; try assumption;
      try (constructor; assumption);
      try (destruct H as [H|[]]; subst; intro; apply I4 in H; lia);
      try (destruct H; [subst; lia|contradiction]);
      try (apply I4 in H; lia).
    all: apply R2; assumption.
  - apply andb_true_iff in Hen as [Hen _]. rewrite Hen in I2. specialize (I2 eq_refl).
    subst au. cbn in I1. subst lv.
    case_env env; destruct (map_get key cache); cbn;
      repeat split; intros; cbn in *; try discriminate; try tauto; try lia; try assumption;
      try (destruct H as [H|[]]; subst; intro; apply I4 in H; lia);
      try (destruct H; [subst; lia|contradiction]);
      try (apply I4 in H; lia).
  - destruct ast; try discriminate.
    run_cache. destruct au as [[n|s]|]; cbn in *; subst lv.
    + rewrite remove_single.
      repeat split; intros; cbn in *; try discriminate; try tauto.
      * constructor; [apply I6; left; reflexivity|exact I3].
      * destruct H as [H|H]; [injection H as ->; apply I5; left; reflexivity|apply I4, H].
    + exfalso. exact (I7 s eq_refl).
    + repeat split; intros; cbn in *; try discriminate; try tauto; auto.
Qed.
Lemma ui_reachable_discipline (st : St) : ui_reachable st -> url_discipline st.
Proof.
  induction 1 as [|env e st _ IH Hen]; [exact discipline_init|].
  apply step_discipline; assumption.
Qed.

(** X6: along every sequence of the events the page offers, the only live
    object URL is the one bound to the player (none is leaked), no object
    URL is revoked twice, and a revoked one is never bound to the player. *)
Theorem ui_object_urls_released (st : St) :
  ui_reachable st ->
  live (browser st) = bound_blobs (audioUrl st) /\
  NoDup (revoked (browser st)) /\
  (forall n, In (Blob n) (revoked (browser st)) -> audioUrl st <> Some (Blob n)).
Proof.
  intros Hr. destruct (ui_reachable_discipline st Hr) as [I1 [_ [I3 [_ [_ [I6 _]]]]]].
  split; [exact I1|]. split; [exact I3|].
  intros n Hn Hb. apply (I6 n); [rewrite I1, Hb; left; reflexivity|exact Hn].
Qed.

Definition demo_result : AnalysisResult := mkResult "summary" [] "Likely to close" (Some 20%Z) "demo".

Definition demo_file : File := mkFile "call.mp3" 1000 42 "audio/mpeg".

Definition demo_env (url : res unit) (analysis : res AnalysisResult) : Env :=
  mkEnv url (Ok ("AAAA", "01:00")) analysis 7 None None (fun p => p).

(** Analyse, reset, fail to analyse, restore from the recent list. *)
Definition demo_session : St :=
  let s1 := step (demo_env (Ok tt) (Ok demo_result)) (SelectFile demo_file) init in
  let s2 := step (demo_env (Ok tt) (Ok demo_result)) Reset s1 in
  let s3 := step (demo_env (Ok tt) (Throw "500")) (SelectFile (mkFile "b.mp3" 1 1 "audio/mpeg")) s2 in
  step (demo_env (Ok tt) (Ok demo_result)) (SelectRecent (cacheKey demo_file)) s3.

Lemma ui_object_urls_released_witness :
  live (browser demo_session) = bound_blobs (audioUrl demo_session) /\
  revoked (browser demo_session) = [Blob 1; Blob 0].
Proof.
  split; [|vm_compute; reflexivity].
  refine (proj1 (ui_object_urls_released demo_session _)).
  unfold demo_session.
  repeat (apply ui_step; [|vm_compute; reflexivity]). apply ui_init.
Defined.

(** X7: the effect of [handleRecentSelect] on the whole state.  A key
    with no cache entry changes nothing.  With an entry, when a new object
    URL is created the session is restored in [SUCCESS]: file name,
    duration and result of the entry, player bound to the new URL, which
    is added to the live object URLs; the URL bound before is not revoked,
    the error message is left as it was, and there is no analysis call and
    no change to the cache or the recent list.  When URL creation fails
    the page returns to [IDLE] with the restore message and nothing else
    changes. *)
Theorem handleRecentSelect_spec (env : Env) (k : string) (st : St) :
  (map_get k (analysisCache st) = None -> step env (SelectRecent k) st = st) /\
  (forall c, map_get k (analysisCache st) = Some c -> env_url env = Ok tt ->
     step env (SelectRecent k) st =
     {| appState := SUCCESS; analysisData := Some (c_result c); errorMsg := errorMsg st;
        fileName := file_name (c_file c); duration := c_duration c;
        audioUrl := Some (Blob (next_blob (browser st)));
        recentUploads := recentUploads st; analysisCache := analysisCache st;
        isShareOpen := isShareOpen st;
        browser := mkBrowser (next_blob (browser st) :: live (browser st))
                             (S (next_blob (browser st))) (revoked (browser st));
        analyze_calls := analyze_calls st |}) /\
  (forall c m, map_get k (analysisCache st) = Some c -> env_url env = Throw m ->
     step env (SelectRecent k) st =
     set_errorMsg (Some "Could not restore previous session. Please upload the file again.")
                  (set_appState IDLE st)).
Proof.
  split; [|split].
  - intros Hm. run_cache. rewrite Hm. reflexivity.
  - intros c Hm Hu. run_cache. rewrite Hm, Hu. cbn. reflexivity.
  - intros c m Hm Hu. run_cache. rewrite Hm, Hu. cbn. reflexivity.
Qed.

(** X8: a file selection ends in [SUCCESS] or [ERROR].  In [SUCCESS] the
    player is bound to the object URL just created, which stays live.  In
    [ERROR] no object URL of the run is left live and nothing is added to
    the cache.  When the object URL cannot be created, the run ends in
    [ERROR] with the player binding, the object URLs and the cache as they
    were; when it was created and the run fails later, it is revoked and
    the player unbound. *)
Theorem handleFileSelect_cleanup (env : Env) (file : File) (st : St) :
  ~ In (next_blob (browser st)) (live (browser st)) ->
  let st' := step env (SelectFile file) st in
  ((appState st' = SUCCESS /\ audioUrl st' = Some (Blob (next_blob (browser st))) /\
    live (browser st') = next_blob (browser st) :: live (browser st)) \/
   (appState st' = ERROR /\ live (browser st') = live (browser st) /\
    analysisCache st' = analysisCache st /\
    (audioUrl st' = None \/ audioUrl st' = audioUrl st))) /\
  (forall m, env_url env = Throw m ->
     appState st' = ERROR /\ audioUrl st' = audioUrl st /\ browser st' = browser st /\
     analysisCache st' = analysisCache st) /\
  (env_url env = Ok tt -> appState st' = ERROR ->
     audioUrl st' = None /\ live (browser st') = live (browser st) /\
     revoked (browser st') = Blob (next_blob (browser st)) :: revoked (browser st) /\
     analysisCache st' = analysisCache st).
Proof.
  intros Hf st'. subst st'.
  assert (Hr : remove Nat.eq_dec (next_blob (browser st)) (live (browser st)) = live (browser st))
    by (apply notin_remove; exact Hf).
  split; [|split].
  - case_env env; try destruct (map_get (cacheKey file) (analysisCache st)); cbn;
      try (destruct (Nat.eq_dec (next_blob (browser st)) (next_blob (browser st))) as [_|Hc];
           [|exfalso; apply Hc; reflexivity]);
      rewrite ?Hr; auto 8.
  - intros m Hu. destruct env as [u enc an now up db pu]; cbn in Hu; subst u. run_cache.
    repeat split.
  - intros Hu. destruct env as [u enc an now up db pu]; cbn in Hu; subst u.
    destruct enc as [[b d]|e2]; destruct an as [r|e3]; run_cache;
      destruct (map_get (cacheKey file) (analysisCache st)); cbn; intros Hs;
      try discriminate Hs;
      destruct (Nat.eq_dec (next_blob (browser st)) (next_blob (browser st))) as [_|Hc];
      try (exfalso; apply Hc; reflexivity);
      rewrite ?Hr; repeat split.
Qed.

Lemma handleFileSelect_cleanup_witness :
  appState (step (demo_env (Ok tt) (Throw "413 Payload Too Large")) (SelectFile demo_file) init)
    = ERROR /\
  live (browser (step (demo_env (Ok tt) (Throw "413 Payload Too Large")) (SelectFile demo_file)
                   init)) = [].
Proof.
  destruct (handleFileSelect_cleanup (demo_env (Ok tt) (Throw "413 Payload Too Large")) demo_file
              init (fun H => H)) as [[[H _]|[H1 [H2 _]]] _].
  - vm_compute in H. discriminate H.
  - split; [exact H1|exact H2].
Defined.

(** X9: the message of a failed selection names the failing stage: a
    failed object URL gives the audio-player message, a failed encoding
    the processing message, both without an analysis call; a failed
    analysis ends in [ERROR] with one of five fixed messages, picked by
    the first of ["400"], ["413"], ["429"] and ["Candidate was blocked"]
    that the error's message contains, the generic one when it contains
    none of them. *)
Theorem handleFileSelect_error_messages (env : Env) (file : File) (st : St) :
  let st' := step env (SelectFile file) st in
  (forall m, env_url env = Throw m ->
     errorMsg st' =
       Some "Failed to initialize audio player. Your browser may not support this file type." /\
     analyze_calls st' = analyze_calls st) /\
  (forall m, env_url env = Ok tt -> map_get (cacheKey file) (analysisCache st) = None ->
     env_encode env = Throw m ->
     errorMsg st' = Some ("Unable to process the audio file. It might be corrupted"
                          ++ " or in an unsupported format.")%string /\
     analyze_calls st' = analyze_calls st) /\
  (forall m enc, env_url env = Ok tt -> map_get (cacheKey file) (analysisCache st) = None ->
     env_encode env = Ok enc -> env_analyze env = Throw m ->
     appState st' = ERROR /\ errorMsg st' = Some (analysisErrorMessage m) /\
     (includes m "400" = true ->
        errorMsg st' = Some "The audio format is not supported by the AI model.") /\
     (includes m "400" = false -> includes m "413" = true ->
        errorMsg st' = Some "The audio file is too large to be processed.") /\
     (includes m "400" = false -> includes m "413" = false -> includes m "429" = true ->
        errorMsg st' = Some "Too many requests. Please wait a moment and try again.") /\
     (includes m "400" = false -> includes m "413" = false -> includes m "429" = false ->
        includes m "Candidate was blocked" = true ->
        errorMsg st' = Some "Analysis blocked by safety filters. Content may be inappropriate.") /\
     (includes m "400" = false -> includes m "413" = false -> includes m "429" = false ->
        includes m "Candidate was blocked" = false ->
        errorMsg st' = Some "AI analysis failed to generate a response. Please try again.")).
Proof.
  intros st'. subst st'. split; [|split].
  - intros m Hu. destruct env as [u enc an now up db pu]; cbn in Hu; subst u. run_cache.
    split; reflexivity.
  - intros m Hu Hm He. destruct env as [u enc an now up db pu]; cbn in Hu, He; subst u enc.
    run_cache. rewrite Hm. cbn. split; reflexivity.
  - intros m [b d] Hu Hm He Ha. destruct env as [u enc an now up db pu]; cbn in Hu, He, Ha.
    subst u enc an. run_cache. rewrite Hm. cbn.
    assert (Hne : analysisErrorMessage m <> "").
    { unfold analysisErrorMessage.
      repeat match goal with |- context [if ?c then _ else _] => destruct c end; discriminate. }
    unfold or_default. destruct (string_dec (analysisErrorMessage m) "") as [E|_];
      [contradiction|].
    split; [reflexivity|]. split; [reflexivity|].
    unfold analysisErrorMessage.
    repeat split; intros; repeat match goal with H : includes _ _ = _ |- _ => rewrite H; clear H end;
      reflexivity.
Qed.

Lemma in_add_recent (k k0 n d : string) (t : Z) (l : list RecentUpload) :
  In k (map r_cacheKey (addToRecentUploads k0 n d t l)) -> k = k0 \/ In k (map r_cacheKey l).
Proof.
  unfold addToRecentUploads. destruct (existsb _ l); [auto|].
  cbn. intros [H|H]; auto.
Qed.

(** A step adds to the recent list only a key it leaves in the cache, and
    writes the cache only under the key of the entry's own file. *)
Lemma step_recent_cache (env : Env) (e : event) (st : St) :
  (recentUploads (step env e st) = recentUploads st \/
   exists k n d t c, recentUploads (step env e st) = addToRecentUploads k n d t (recentUploads st) /\
     map_get k (analysisCache (step env e st)) = Some c) /\
  (analysisCache (step env e st) = analysisCache st \/
   exists c, analysisCache (step env e st) = map_set (cacheKey (c_file c)) c (analysisCache st)).
Proof.
  destruct e as [file|key|].
  - case_env env; try (split; left; reflexivity);
      destruct (map_get (cacheKey file) (analysisCache st)) as [c|] eqn:Hm; cbn;
      first
        [ split; left; reflexivity
        | split; [right; do 5 eexists; split; [reflexivity|]
                 |first [left; reflexivity|right; eexists (mkCached _ _ _ _); reflexivity]];
          first [exact Hm|rewrite CacheFacts.map_get_set, String.eqb_refl; reflexivity] ].
  - case_env env; destruct (map_get key (analysisCache st)); cbn; split; left; reflexivity.
  - run_cache. destruct (audioUrl st); cbn; split; left; reflexivity.
Qed.

Lemma reachable_recent_cached (st : St) :
  reachable st ->
  (forall k, In k (map r_cacheKey (recentUploads st)) -> exists c, map_get k (analysisCache st) = Some c) /\
  (forall k c, map_get k (analysisCache st) = Some c -> cacheKey (c_file c) = k).
Proof.
  induction 1 as [|env e st _ [IH1 IH2]].
  - split; [intros k []|intros k c H; discriminate H].
  - destruct (step_recent_cache env e st) as [[Hr|[k0 [n [d [t [c0 [Hr Hc0]]]]]]] Hc]; split.
    + intros k Hk. rewrite Hr in Hk. destruct (IH1 k Hk) as [c Hc'].
      exists c. apply CacheFacts.step_keeps_entry, Hc'.
    + intros k c Hk. destruct Hc as [Hc|[c1 Hc]]; rewrite Hc in Hk; [exact (IH2 k c Hk)|].
      rewrite CacheFacts.map_get_set in Hk. destruct (String.eqb k (cacheKey (c_file c1))) eqn:E.
      * apply String.eqb_eq in E. injection Hk as <-. congruence.
      * exact (IH2 k c Hk).
    + intros k Hk. rewrite Hr in Hk. destruct (in_add_recent _ _ _ _ _ _ Hk) as [->|Hk'];
        [exists c0; exact Hc0|].
      destruct (IH1 k Hk') as [c Hc']. exists c. apply CacheFacts.step_keeps_entry, Hc'.
    + intros k c Hk. destruct Hc as [Hc|[c1 Hc]]; rewrite Hc in Hk; [exact (IH2 k c Hk)|].
      rewrite CacheFacts.map_get_set in Hk. destruct (String.eqb k (cacheKey (c_file c1))) eqn:E.
      * apply String.eqb_eq in E. injection Hk as <-. congruence.
      * exact (IH2 k c Hk).
Qed.

Lemma in_add_recent_keep (k k0 n d : string) (t : Z) (l : list RecentUpload) :
  In k (map r_cacheKey l) -> In k (map r_cacheKey (addToRecentUploads k0 n d t l)).
Proof. unfold addToRecentUploads. destruct (existsb _ l); [auto | intros H; right; exact H]. Qed.

Lemma run_keeps_recent (evs : list (Env * event)) (st : St) (k : string) :
  In k (map r_cacheKey (recentUploads st)) -> In k (map r_cacheKey (recentUploads (run evs st))).
Proof.
  revert st; induction evs as [|[env e] evs IH]; intros st Hk; [exact Hk|].
  apply IH. destruct (CacheFacts.step_recent env e st) as [H|[k0 [n [d [t H]]]]]; rewrite H;
    [exact Hk | apply in_add_recent_keep, Hk].
Qed.

Lemma run_reachable (evs : list (Env * event)) (st : St) :
  reachable st -> reachable (run evs st).
Proof.
  revert st; induction evs as [|[env e] evs IH]; intros st Hr; [exact Hr|].
  apply IH, reach_step, Hr.
Qed.

(** X10: once a key is in the recent-uploads list of a reachable state,
    it stays listed whatever events follow, and selecting it when an
    object URL can be created reaches [SUCCESS] without an analysis call,
    showing the cached result of a file whose cache key is that key,
    under that file's name. *)
Theorem recent_item_restorable (env : Env) (k : string) (st : St) (evs : list (Env * event)) :
  reachable st -> In k (map r_cacheKey (recentUploads st)) -> env_url env = Ok tt ->
  let st1 := run evs st in
  let st' := step env (SelectRecent k) st1 in
  In k (map r_cacheKey (recentUploads st1)) /\
  appState st' = SUCCESS /\ analyze_calls st' = analyze_calls st1 /\
  exists c, cacheKey (c_file c) = k /\ fileName st' = file_name (c_file c) /\
            analysisData st' = Some (c_result c).
Proof.
  intros Hr Hk Hu st1 st'. subst st'.
  pose proof (run_keeps_recent evs st k Hk) as Hk1. fold st1 in Hk1.
  pose proof (run_reachable evs st Hr) as Hr1. fold st1 in Hr1.
  split; [exact Hk1|].
  destruct (reachable_recent_cached st1 Hr1) as [R1 R2].
  destruct (R1 k Hk1) as [c Hc].
  destruct env as [u enc an now up db pu]; cbn in Hu; subst u.
  run_cache. rewrite Hc. cbn. split; [reflexivity|split; [reflexivity|]].
  exists c. split; [exact (R2 k c Hc)|split; reflexivity].
Qed.

Lemma recent_item_restorable_witness :
  appState (step (demo_env (Ok tt) (Ok demo_result)) (SelectRecent (cacheKey demo_file))
              (run [(demo_env (Ok tt) (Ok demo_result), Reset);
                    (demo_env (Ok tt) (Throw "500"), SelectFile (mkFile "b.mp3" 1 1 "audio/mpeg"))]
                 (step (demo_env (Ok tt) (Ok demo_result)) (SelectFile demo_file) init))) = SUCCESS.
Proof.
  refine (proj1 (proj2 (recent_item_restorable (demo_env (Ok tt) (Ok demo_result))
           (cacheKey demo_file)
           (step (demo_env (Ok tt) (Ok demo_result)) (SelectFile demo_file) init)
           [(demo_env (Ok tt) (Ok demo_result), Reset);
            (demo_env (Ok tt) (Throw "500"), SelectFile (mkFile "b.mp3" 1 1 "audio/mpeg"))]
           _ _ _))).
  - apply reach_step, reach_init.
  - vm_compute. left. reflexivity.
  - reflexivity.
Defined.

End CacheUIFacts.

(* ------------------------------------------------------------------ *)
(** ** The persisted controller: file extension, failure and success *)

Module PersistRunFacts.
Import JsString JsNumber Transcript Effects AppCommon PersistApp.

Ltac run_handler :=
  unfold exec, handleFileSelect, handleReset, pipeline, onFailure, createObjectURL,
    revokeObjectURL, analyzeSalesCall, upload, insert, fetchHistory, attempt, try_catch,
    bind, ret, throw, lift, modify, gets; cbn.

Lemma split_go_nonnil (sep : ascii) (s : string) : forall cur, split_go sep cur s <> [].
Proof.
  induction s as [|c s IH]; intros cur; cbn; [intro H; inversion H|].
  destruct (Ascii.eqb c sep); [intro H; inversion H|apply IH].
Qed.

Lemma split_go_last_sep (sep : ascii) (a b : string) : forall cur,
  last (split_go sep cur (a ++ String sep b)%string) "" = last (split_go sep [] b) "".
Proof.
  induction a as [|c a IH]; intros cur; cbn.
  - rewrite Ascii.eqb_refl. destruct (split_go sep [] b) eqn:E; [|reflexivity].
    exfalso. exact (split_go_nonnil sep b [] E).
  - destruct (Ascii.eqb c sep).
    + rewrite <- (IH []). destruct (split_go sep [] (a ++ String sep b)%string) eqn:E.
      * exfalso. exact (split_go_nonnil sep _ [] E).
      * reflexivity.
    + apply IH.
Qed.

(** X11: the extension used in the storage path is the text after the last
    ['.'] of the file name, and the whole name when it has no ['.']. *)
Theorem fileExt_spec (a b : string) :
  has_char "." b = false ->
  fileExt (a ++ "." ++ b)%string = b /\ fileExt b = b.
Proof.
  intros Hb. unfold fileExt, last_piece, split.
  change ("." ++ b)%string with (String "." b).
  rewrite split_go_last_sep.
  rewrite TranscriptFacts.split_go_nosep by exact Hb. cbn.
  rewrite string_of_list_ascii_of_string. split; reflexivity.
Qed.

Lemma fileExt_spec_witness :
  fileExt "call.2024.mp3" = "mp3" /\ fileExt "recording" = "recording".
Proof.
  split.
  - exact (proj1 (fileExt_spec "call.2024" "mp3" eq_refl)).
  - exact (proj2 (fileExt_spec "" "recording" eq_refl)).
Defined.

(** X12: when a run fails after its object URL was created, that URL is
    revoked but stays bound to the player: [audioUrl] names the handle
    just revoked, and no object URL of the run is left live. *)
Theorem failed_run_binds_revoked_url (env : Env) (file : File) (st : St) (u : User) :
  user st = Some u -> env_url env = Ok tt ->
  ~ In (next_blob (browser st)) (live (browser st)) ->
  let st' := exec (handleFileSelect env file) st in
  appState st' = ERROR ->
  audioUrl st' = Some (Blob (next_blob (browser st))) /\
  hd_error (revoked (browser st')) = Some (Blob (next_blob (browser st))) /\
  live (browser st') = live (browser st).
Proof.
  intros Hu Hurl Hf st'. subst st'.
  assert (Hr : remove Nat.eq_dec (next_blob (browser st)) (live (browser st)) = live (browser st))
    by (apply notin_remove; exact Hf).
  destruct env as [[t|e1] [[b d]|e2] [r|e3] now [um|] [dm|] pu]; cbn in Hurl;
    try discriminate Hurl; run_handler; rewrite Hu; cbn; intros Herr;
    try discriminate Herr;
    destruct (Nat.eq_dec (next_blob (browser st)) (next_blob (browser st))) as [_|Hc];
    try (exfalso; apply Hc; reflexivity); rewrite Hr; auto.
Qed.

Definition demo_result : AnalysisResult := mkResult "summary" [] "Likely to close" (Some 20%Z) "demo".

Definition demo_file : File := mkFile "call.mp3" 1000 42 "audio/mpeg".

Definition demo_env (analysis : res AnalysisResult) : Env :=
  mkEnv (Ok tt) (Ok ("AAAA", "01:00")) analysis 7 (Some "Bucket not found") None
        (fun p => ("https://project.supabase.co/storage/v1/object/public/calls/" ++ p)%string).

Lemma failed_run_binds_revoked_url_witness :
  appState (exec (handleFileSelect (demo_env (Throw "429")) demo_file) (signed_in (mkUser "u1")))
    = ERROR /\
  audioUrl (exec (handleFileSelect (demo_env (Throw "429")) demo_file) (signed_in (mkUser "u1")))
    = Some (Blob 0).
Proof.
  assert (He : appState (exec (handleFileSelect (demo_env (Throw "429")) demo_file)
                              (signed_in (mkUser "u1"))) = ERROR) by (vm_compute; reflexivity).
  split; [exact He|].
  exact (proj1 (failed_run_binds_revoked_url (demo_env (Throw "429")) demo_file
                  (signed_in (mkUser "u1")) (mkUser "u1") eq_refl eq_refl
                  ltac:(simpl; tauto) He)).
Defined.

(** X13: a successful run uploaded the file once, at
    [user_id/Date.now().ext], inserted one row for the signed-in user
    whose audio URL is the public URL of that path and whose fields come
    from the analysed result, issued one analysis call, played the public
    URL (whether or not the upload succeeded) and requested the history. *)
Theorem success_persists_call (env : Env) (file : File) (st : St) (u : User) :
  user st = Some u ->
  let path := (user_id u ++ "/" ++ Z_to_string (env_now env) ++ "." ++ fileExt (file_name file))%string in
  let st' := exec (handleFileSelect env file) st in
  appState st' = SUCCESS ->
  exists b d r, env_encode env = Ok (b, d) /\ env_analyze env = Ok r /\
    storage_uploads st' = (path, file) :: storage_uploads st /\
    db_inserts st' = mkRow (user_id u) (file_name file) d r (verdict r) (riskScore r) (callType r)
                       (env_public_url env path) :: db_inserts st /\
    analyze_calls st' = (b, file_type file) :: analyze_calls st /\
    analysisData st' = Some r /\ duration st' = d /\ fileName st' = file_name file /\
    audioUrl st' = Some (Remote (env_public_url env path)) /\
    history_fetches st' = S (history_fetches st).
Proof.
  intros Hu path st'. subst path st'.
  destruct env as [[t|e1] [[b d]|e2] [r|e3] now [um|] [dm|] pu];
    run_handler; rewrite Hu; cbn; intros Hs; try discriminate Hs;
    exists b, d, r; repeat split.
Qed.

Lemma success_persists_call_witness :
  storage_uploads (exec (handleFileSelect (demo_env (Ok demo_result)) demo_file)
                        (signed_in (mkUser "u1"))) = [("u1/7.mp3", demo_file)].
Proof.
  assert (Hs : appState (exec (handleFileSelect (demo_env (Ok demo_result)) demo_file)
                              (signed_in (mkUser "u1"))) = SUCCESS) by (vm_compute; reflexivity).
  destruct (success_persists_call (demo_env (Ok demo_result)) demo_file (signed_in (mkUser "u1"))
              (mkUser "u1") eq_refl Hs) as [b [d [r [_ [_ [H _]]]]]].
  rewrite H. vm_compute. reflexivity.
Defined.

End PersistRunFacts.

(* ------------------------------------------------------------------ *)
(** ** The analysis service: key choice, client reuse, empty responses *)

Module GeminiClientFacts.
Import Effects Gemini.

(** X14: the first client is built from [API_KEY] when it is a non-empty
    string, else from [GEMINI_API_KEY] when that is; with neither, the
    missing-key error is thrown and nothing is cached.  Once a client is
    cached it is returned whatever the environment holds. *)
Theorem getAIClient_key_choice (penv : ProcessEnv) (st : GState) :
  (forall c, ai st = Some c -> getAIClient penv st = (st, Ok c)) /\
  (ai st = None -> forall k, API_KEY penv = Some k -> k <> "" ->
     getAIClient penv st = (mkGState (Some (mkClient k)) (requests st), Ok (mkClient k))) /\
  (ai st = None -> truthy (API_KEY penv) = false -> forall k, GEMINI_API_KEY penv = Some k ->
     k <> "" ->
     getAIClient penv st = (mkGState (Some (mkClient k)) (requests st), Ok (mkClient k))) /\
  (ai st = None -> truthy (API_KEY penv) = false -> truthy (GEMINI_API_KEY penv) = false ->
     getAIClient penv st = (st, Throw missingKeyMessage)).
Proof.
  destruct penv as [k1 k2]; cbn. unfold getAIClient, js_or; cbn.
  split; [|split; [|split]].
  - intros c Hc. rewrite Hc. reflexivity.
  - intros Hn k Hk Hne. rewrite Hn, Hk. cbn.
    destruct (String.eqb k "") eqn:E; [apply String.eqb_eq in E; contradiction|].
    cbn; rewrite ?E; reflexivity.
  - intros Hn Ht k Hk Hne. rewrite Hn, Ht, Hk. cbn.
    destruct (String.eqb k "") eqn:E; [apply String.eqb_eq in E; contradiction|].
    cbn; rewrite ?E; reflexivity.
  - intros Hn Ht1 Ht2. rewrite Hn, Ht1.
    destruct k2 as [k|]; [|reflexivity]. cbn in Ht2 |- *. rewrite Ht2. reflexivity.
Qed.

(** X15: with a client cached, a call builds no client and checks no key:
    it sends one request with the cached client's key and keeps the
    client; a non-empty response text is handed to [JSON.parse], whose
    result or [SyntaxError] is the call's; an absent or empty text throws
    ["No response from Gemini"]; a failed request's error is rethrown. *)
Theorem analyzeSalesCall_cached_client {A : Type} (JSON_parse : string -> res A)
    (penv : ProcessEnv) (resp : res (option string)) (b m : string) (st : GState)
    (c : GoogleGenAI) :
  ai st = Some c ->
  let '(st', r) := analyzeSalesCall JSON_parse penv resp b m st in
  ai st' = Some c /\ requests st' = (apiKey c, b, m) :: requests st /\
  (forall t, resp = Ok (Some t) -> t <> "" -> r = JSON_parse t) /\
  (resp = Ok None \/ resp = Ok (Some "") -> r = Throw "No response from Gemini") /\
  (forall e, resp = Throw e -> r = Throw e).
Proof.
  intros Hc. unfold analyzeSalesCall, getAIClient, generateContent, bind, ret, throw, lift.
  rewrite Hc. cbn.
  destruct resp as [[t|]|e]; cbn;
    [destruct (String.eqb t "") eqn:E; cbn;
     [apply String.eqb_eq in E; subst t|apply String.eqb_neq in E]| |];
    repeat first [split | intro];
    repeat match goal with
           | H : _ /\ _ |- _ => destruct H
           | H : _ \/ _ |- _ => destruct H
           end;
    try congruence.
Qed.

Lemma analyzeSalesCall_cached_client_witness :
  let g1 := fst (analyzeSalesCall (fun t => Ok t) (mkProcessEnv None (Some "k1")) (Ok (Some "{}"))
                   "AAAA" "audio/mpeg" gstate0) in
  ai g1 = Some (mkClient "k1") /\
  snd (analyzeSalesCall (fun t => Ok t) (mkProcessEnv None None) (Ok (Some "")) "BBBB" "audio/wav" g1)
    = Throw "No response from Gemini".
Proof.
  intros g1. assert (Hc : ai g1 = Some (mkClient "k1")) by reflexivity.
  split; [exact Hc|].
  pose proof (analyzeSalesCall_cached_client (fun t => Ok t) (mkProcessEnv None None) (Ok (Some ""))
                "BBBB" "audio/wav" g1 (mkClient "k1") Hc) as H.
  destruct (analyzeSalesCall (fun t => Ok t) (mkProcessEnv None None) (Ok (Some "")) "BBBB"
              "audio/wav" g1) as [g2 r] eqn:E.
  destruct H as [_ [_ [_ [H _]]]]. exact (H (or_intror eq_refl)).
Defined.

End GeminiClientFacts.

(* ------------------------------------------------------------------ *)
(** ** The simulated progress bar *)

Module ProgressFacts.
Import Progress.

Lemma uploadingTick_Z (z : Z) :
  uploadingTick (inject_Z z) = inject_Z (if (35 <=? z)%Z then 35 else z + 2)%Z.
Proof.
  unfold uploadingTick, Qle_bool, inject_Z, Qplus. cbn. rewrite !Z.mul_1_r.
  destruct (35 <=? z)%Z; reflexivity.
Qed.

Lemma analyzingEnter_Z (z : Z) :
  analyzingEnter (inject_Z z) = inject_Z (if (z <=? 35)%Z then 35 else z)%Z.
Proof.
  unfold analyzingEnter, Qle_bool, inject_Z. cbn. rewrite !Z.mul_1_r.
  destruct (z <=? 35)%Z; reflexivity.
Qed.

Lemma uploading_iter (n : nat) :
  Nat.iter n uploadingTick 0 =
    inject_Z (if (n <=? 17)%nat then 2 * Z.of_nat n else if (n =? 18)%nat then 36 else 35)%Z.
Proof.
  induction n as [|n IH]; [reflexivity|].
  rewrite Nat.iter_succ, IH, uploadingTick_Z. f_equal.
  destruct (Nat.leb_spec n 17), (Nat.eqb_spec n 18), (Nat.leb_spec (S n) 17),
    (Nat.eqb_spec (S n) 18); try lia;
    match goal with |- context [(35 <=? ?z)%Z] => destruct (Z.leb_spec 35 z) end; lia.
Qed.

(** X16: in [UPLOADING] the progress counts 0, 2, ..., 34, then overshoots
    its cap to 36 at the 18th tick and stays at 35 from the 19th on;
    entering [ANALYZING] then shows 35, or 36 when it happens right
    after the 18th tick. *)
Theorem uploading_progress (n : nat) :
  Nat.iter n uploadingTick 0 =
    inject_Z (if (n <=? 17)%nat then 2 * Z.of_nat n else if (n =? 18)%nat then 36 else 35)%Z /\
  analyzingEnter (Nat.iter n uploadingTick 0) = inject_Z (if (n =? 18)%nat then 36 else 35)%Z.
Proof.
  split; [apply uploading_iter|]. rewrite uploading_iter, analyzingEnter_Z. f_equal.
  destruct (Nat.leb_spec n 17), (Nat.eqb_spec n 18); try lia;
    match goal with |- context [(?z <=? 35)%Z] => destruct (Z.leb_spec z 35) end; lia.
Qed.

End ProgressFacts.

(* ------------------------------------------------------------------ *)
(** ** The earlier controller: object URLs on failure *)

Module LegacyFacts.
Import JsString JsNumber Transcript Effects AppCommon LegacyApp.

#[local] Arguments CacheApp.map_set {V} k v m : simpl never.
#[local] Arguments CacheApp.cacheKey file : simpl never.

Ltac run_legacy :=
  unfold step, exec, handleFileSelect, handleReset, createObjectURL, revokeObjectURL,
    analyzeSalesCall, try_catch, bind, ret, lift, modify, gets; cbn.

(** A selection whose object URL is created ends in [SUCCESS], bound to
    the new URL, or in [ERROR]; the [ERROR] path revokes and unbinds the
    URL bound before the run, if any, and leaves the new one as it is. *)
Lemma legacy_select (env : Env) (file : File) (st : St) :
  env_url env = Ok tt ->
  let br := mkBrowser (next_blob (browser st) :: live (browser st)) (S (next_blob (browser st)))
                      (revoked (browser st)) in
  let st' := step env (SelectFile file) st in
  (appState st' = SUCCESS /\ audioUrl st' = Some (Blob (next_blob (browser st))) /\
   browser st' = br) \/
  (appState st' = ERROR /\
   match audioUrl st with
   | None => audioUrl st' = Some (Blob (next_blob (browser st))) /\ browser st' = br
   | Some a => audioUrl st' = None /\ browser st' = revoke_url a br
   end).
Proof.
  intros Hu br st'. subst br st'.
  destruct env as [u [[b d]|e2] [r|e3] now up db pu]; cbn in Hu; subst u; run_legacy;
    destruct (CacheApp.map_get (CacheApp.cacheKey file) (analysisCache st)) as [[r0 d0]|];
    cbn; auto; destruct (audioUrl st); cbn; auto.
Qed.

Lemma legacy_reset_blob (env : Env) (st : St) (n : nat) :
  audioUrl st = Some (Blob n) ->
  audioUrl (step env Reset st) = None /\
  browser (step env Reset st) =
    mkBrowser (remove Nat.eq_dec n (live (browser st))) (next_blob (browser st))
              (Blob n :: revoked (browser st)).
Proof. intros H. run_legacy. rewrite H. cbn. split; reflexivity. Qed.

(** X17: in the earlier controller a failed selection never revokes the
    object URL it created: it revokes the URL bound before the run
    instead.  With no URL bound before, the new one stays bound and live;
    with one bound before, that one is revoked and the new one is left
    live and unbound. *)
Theorem legacy_failure_keeps_new_url (env : Env) (file : File) (st : St) :
  env_url env = Ok tt ->
  (forall n, audioUrl st = Some (Blob n) -> (n < next_blob (browser st))%nat) ->
  let nb := next_blob (browser st) in
  let st' := step env (SelectFile file) st in
  appState st' = ERROR ->
  In nb (live (browser st')) /\
  revoked (browser st') =
    match audioUrl st with Some a => a :: revoked (browser st) | None => revoked (browser st) end /\
  audioUrl st' = match audioUrl st with Some _ => None | None => Some (Blob nb) end.
Proof.
  intros Hu Hf nb st' He. subst nb st'.
  destruct (legacy_select env file st Hu) as [[Hs _]|[_ H]]; [congruence|].
  destruct (audioUrl st) as [[n|r]|] eqn:Ea; destruct H as [H1 H2]; rewrite H1, H2; cbn.
  - split; [|split; reflexivity].
    specialize (Hf n eq_refl).
    destruct (Nat.eq_dec n (next_blob (browser st))); [lia|left; reflexivity].
  - split; [left; reflexivity|split; reflexivity].
  - split; [left; reflexivity|split; reflexivity].
Qed.

Definition demo_result : AnalysisResult := mkResult "summary" [] "Likely to close" (Some 20%Z) "demo".

Definition demo_file : File := mkFile "call.mp3" 1000 42 "audio/mpeg".

Definition demo_env (analysis : res AnalysisResult) : Env :=
  mkEnv (Ok tt) (Ok ("AAAA", "01:00")) analysis 7 None None (fun p => p).

Lemma legacy_failure_keeps_new_url_witness :
  live (browser (step (demo_env (Throw "500")) (SelectFile demo_file) init)) = [0%nat] /\
  audioUrl (step (demo_env (Throw "500")) (SelectFile demo_file) init) = Some (Blob 0).
Proof.
  destruct (legacy_failure_keeps_new_url (demo_env (Throw "500")) demo_file init eq_refl
              ltac:(intros n H; discriminate H) ltac:(vm_compute; reflexivity)) as [_ [_ H]].
  split; [vm_compute; reflexivity|exact H].
Defined.

(** X18: in the earlier controller the page's own events leak an object
    URL: from an idle page with no URL bound, a failed selection, a
    successful selection and a reset (each offered by the page at its
    turn) end with no URL bound, while the URL of the failed selection is
    still live: the only URL ever revoked is the second one. *)
Theorem legacy_ui_leak (env1 env2 env3 : Env) (f g : File) (st : St) :
  CacheApp.upload_enabled (appState st) = true -> audioUrl st = None ->
  env_url env1 = Ok tt -> env_url env2 = Ok tt ->
  let st1 := step env1 (SelectFile f) st in
  let st2 := step env2 (SelectFile g) st1 in
  let st3 := step env3 Reset st2 in
  appState st1 = ERROR -> appState st2 = SUCCESS ->
  enabled st (SelectFile f) = true /\ enabled st1 (SelectFile g) = true /\
  enabled st2 Reset = true /\
  audioUrl st3 = None /\ In (next_blob (browser st)) (live (browser st3)) /\
  revoked (browser st3) = Blob (S (next_blob (browser st))) :: revoked (browser st).
Proof.
  intros Hen Hnone Hu1 Hu2 st1 st2 st3 He Hs. subst st1 st2 st3.
  destruct (legacy_select env1 f st Hu1) as [[Hs1 _]|[_ H1]]; [congruence|].
  rewrite Hnone in H1. destruct H1 as [A1 B1].
  remember (step env1 (SelectFile f) st) as st1 eqn:E1. clear E1.
  destruct (legacy_select env2 g st1 Hu2) as [[_ [A2 B2]]|[He2 _]]; [|congruence].
  rewrite B1 in A2, B2. cbn [live next_blob revoked] in A2, B2.
  remember (step env2 (SelectFile g) st1) as st2 eqn:E2. clear E2.
  destruct (legacy_reset_blob env3 st2 _ A2) as [A3 B3].
  split; [unfold enabled; exact Hen|].
  split; [unfold enabled; rewrite He; reflexivity|].
  split; [unfold enabled; rewrite Hs; reflexivity|].
  split; [exact A3|].
  rewrite B3, B2. cbn [live revoked next_blob]. split; [|reflexivity].
  cbn [remove].
  repeat match goal with |- context [Nat.eq_dec ?a ?b] => destruct (Nat.eq_dec a b); try lia end.
  left. reflexivity.
Qed.

Lemma legacy_ui_leak_witness :
  let st3 := step (demo_env (Ok demo_result)) Reset
               (step (demo_env (Ok demo_result)) (SelectFile (mkFile "b.mp3" 1 1 "audio/mpeg"))
                  (step (demo_env (Throw "500")) (SelectFile demo_file) init)) in
  audioUrl st3 = None /\ live (browser st3) = [0%nat].
Proof.
  destruct (legacy_ui_leak (demo_env (Throw "500")) (demo_env (Ok demo_result))
              (demo_env (Ok demo_result)) demo_file (mkFile "b.mp3" 1 1 "audio/mpeg") init
              eq_refl eq_refl eq_refl eq_refl ltac:(vm_compute; reflexivity)
              ltac:(vm_compute; reflexivity)) as [_ [_ [_ [H _]]]].
  split; [exact H|vm_compute; reflexivity].
Defined.

End LegacyFacts.
